(** * MemFS: an in-memory file system with owner / group / everyone permissions

    Shallow embedding of
      - [src/Permissions/permissions.ts]  ([Permission], [Permissions]),
      - [src/Permissions/userManager.ts]  ([User], [UserManager]),
      - the [FileSystem] module ([Node], [FileSystem], [getDefaultPermissions];
        [getPath] takes a bound on the iterations of its loop).

    JavaScript objects that are mutated in place ([Node]s) live in a heap
    indexed by locations; the two [Map]s of the program are ordered maps, as
    in JavaScript, because the program iterates over them.  Every operation
    runs in a state-and-exception monad: a [throw] leaves the state as the
    statements before it made it. *)

From stdpp Require Import base option list strings gmap.

Set Default Proof Using "Type".
Local Open Scope string_scope.

(* ===================================================================== *)
(** ** JavaScript [Map<string, V>]: an insertion-ordered map *)
(* ===================================================================== *)

Module JSMap.
Section ops.
Context {V : Type}.

Definition t := list (string * V).

(** [new Map()] *)
Definition empty : t := [].

(** [m.get(k)]: [None] stands for [undefined]. *)
Fixpoint get (k : string) (m : t) : option V :=
  match m with
  | [] => None
  | (k', v) :: m' => if decide (k' = k) then Some v else get k m'
  end.

(** [m.has(k)] *)
Definition has (k : string) (m : t) : bool :=
  match get k m with Some _ => true | None => false end.

(** [m.set(k, v)]: an existing key keeps its place, a new key goes last. *)
Fixpoint set (k : string) (v : V) (m : t) : t :=
  match m with
  | [] => [(k, v)]
  | (k', v') :: m' =>
      if decide (k' = k) then (k, v) :: m' else (k', v') :: set k v m'
  end.

(** [m.delete(k)]; keys are unique, so at most one entry goes. *)
Fixpoint delete (k : string) (m : t) : t :=
  match m with
  | [] => []
  | (k', v') :: m' =>
      if decide (k' = k) then delete k m' else (k', v') :: delete k m'
  end.

(** [[...m.keys()]] *)
Definition keys (m : t) : list string := m.*1.

(** [[...m.values()]] *)
Definition values (m : t) : list V := m.*2.
End ops.
Arguments t : clear implicits.
End JSMap.

(* ===================================================================== *)
(** ** permissions.ts and userManager.ts: data *)
(* ===================================================================== *)

Inductive Permission := READ | WRITE | EXECUTE.

#[global] Instance Permission_eq_dec : EqDecision Permission.
Proof. solve_decision. Defined.

#[global] Instance Permission_countable : Countable Permission.
Proof.
  refine (inj_countable'
            (fun p => match p with READ => 0 | WRITE => 1 | EXECUTE => 2 end)
            (fun n => match n with 0 => READ | 1 => WRITE | _ => EXECUTE end) _).
  by intros [].
Defined.

(** [type PermissionSet = Set<Permission>]; the program only builds these
    sets and asks [has]. *)
Abbreviation PermissionSet := (gset Permission).

Module User.
(** [class User { id: string; name: string; groupId?: string }] *)
Record t := mk {
  id : string;
  name : string;
  groupId : option string;
}.
End User.

Module Permissions.
Record t := mk {
  owningUserId : string;
  owningGroupId : string;
  ownerPerms : PermissionSet;
  groupPerms : PermissionSet;
  everyonePerms : PermissionSet;
}.

(** [userHasPermission(permission, user?)].  [user?.id] and
    [user?.groupId] are [undefined] when there is no user, [user.groupId]
    is [undefined] when the user has no group; [===] against a string then
    fails. *)
Definition userHasPermission (this : t) (permission : Permission)
    (user : option User.t) : bool :=
  if decide (User.id <$> user = Some (owningUserId this)) then
    bool_decide (permission ∈ ownerPerms this)
  else if decide (user ≫= User.groupId = Some (owningGroupId this)) then
    bool_decide (permission ∈ groupPerms this)
  else
    bool_decide (permission ∈ everyonePerms this).
End Permissions.

Definition rwx : PermissionSet := {[ READ; WRITE; EXECUTE ]}.


(* ===================================================================== *)
(** ** Errors and the monad of operations *)
(* ===================================================================== *)

(** One constructor per [throw new Error(...)] of the program, named after
    its message, and [TypeError] for a property read on [null]. *)
Inductive Error :=
  | PermissionDenied                  (* "Permission denied" *)
  | FileOrDirectoryNotFound           (* "File or directory not found" *)
  | DirectoryAlreadyExists            (* "Directory already exists" *)
  | FileAlreadyExists                 (* "File already exists" *)
  | DirectoryNotFoundOrNotADirectory  (* "Directory not found or not a directory" *)
  | FileNotFound                      (* "File not found" *)
  | CannotWriteNotAFile               (* "Cannot write to this location because it's not a file" *)
  | CannotReadNotAFile                (* "Cannot read this location because it's not a file" *)
  | FileDoesNotExist (oldName : string)        (* `File "${oldName}" does not exist.` *)
  | NodeAlreadyExists (newName : string)       (* `A node with the name "${newName}" already exists.` *)
  | UserNotFound                      (* "User not found" *)
  | TypeError                         (* property access on null *)
  | Stuck.                            (* a reference to an object that was never allocated;
                                         no JavaScript execution gets there *)

#[global] Instance Error_eq_dec : EqDecision Error.
Proof. solve_decision. Defined.

(** The error kinds of the design document. *)
Inductive ErrorKind := NotFound | AlreadyExists | WrongKind | Denied | Crash.

Definition kind (e : Error) : list ErrorKind :=
  match e with
  | PermissionDenied => [Denied]
  | FileOrDirectoryNotFound | FileNotFound | FileDoesNotExist _ | UserNotFound => [NotFound]
  | DirectoryAlreadyExists | FileAlreadyExists | NodeAlreadyExists _ => [AlreadyExists]
  | DirectoryNotFoundOrNotADirectory => [NotFound; WrongKind]
  | CannotWriteNotAFile | CannotReadNotAFile => [WrongKind]
  | TypeError | Stuck => [Crash]
  end.

Inductive Outcome (A : Type) :=
  | Return (a : A)
  | Throw (e : Error).
Arguments Return {A} a.
Arguments Throw {A} e.

(** An operation on a state [S]: it returns or throws, and in both cases
    leaves a state behind. *)
Definition Op (S A : Type) : Type := S -> Outcome A * S.

Section monad.
Context {S : Type}.

Definition ret {A} (a : A) : Op S A := fun s => (Return a, s).
Definition throw {A} (e : Error) : Op S A := fun s => (Throw e, s).
Definition bind {A B} (m : Op S A) (k : A -> Op S B) : Op S B :=
  fun s =>
    match m s with
    | (Return a, s') => k a s'
    | (Throw e, s') => (Throw e, s')
    end.
Definition gets {A} (f : S -> A) : Op S A := fun s => (Return (f s), s).
Definition modify (f : S -> S) : Op S unit := fun s => (Return tt, f s).
End monad.

Notation "'let!' x ':=' m 'in' k" := (bind m (fun x => k))
  (at level 10, x name, m at level 100, k at level 200,
   format "'[v' 'let!'  x  ':='  m  'in' '/' k ']'").
Notation "'run!' m 'in' k" := (bind m (fun _ => k))
  (at level 10, m at level 100, k at level 200,
   format "'[v' 'run!'  m  'in' '/' k ']'").

(* ===================================================================== *)
(** ** userManager.ts: [UserManager] *)
(* ===================================================================== *)

Module UserManager.
Record t := mk {
  users : JSMap.t User.t;
  currentUser : option User.t;
}.

Definition set_users (f : JSMap.t User.t -> JSMap.t User.t) (this : t) : t :=
  mk (f (users this)) (currentUser this).
Definition set_currentUser (u : option User.t) (this : t) : t :=
  mk (users this) u.

(** The private constructor, called once by [getInstance]. *)
Definition new : t := mk JSMap.empty None.

(** [createUser(name, groupId?)]; [uuid] is what [uuidv4()] returns. *)
Definition createUser (uuid : string) (name : string) (groupId : option string)
    : Op t User.t :=
  let userId := uuid in
  let user := User.mk userId name (Some (default userId groupId)) in
  run! modify (set_users (JSMap.set userId user)) in
  ret user.

Definition deleteUser (userId : string) : Op t unit :=
  let! us := gets users in
  if negb (JSMap.has userId us) then throw UserNotFound
  else modify (set_users (JSMap.delete userId)).

Definition findUserById (userId : string) : Op t (option User.t) :=
  let! us := gets users in
  ret (JSMap.get userId us).

Definition findUserByName (name : string) : Op t (option User.t) :=
  let! us := gets users in
  ret (List.find (fun user => bool_decide (User.name user = name)) (JSMap.values us)).

Definition getCurrentUser : Op t (option User.t) := gets currentUser.

Definition setCurrentUserById (userId : string) : Op t unit :=
  let! u := findUserById userId in
  modify (set_currentUser u).

Definition setCurrentUserByName (name : string) : Op t unit :=
  let! user := findUserByName name in
  match user with
  | None => throw UserNotFound
  | Some u => modify (set_currentUser (Some u))
  end.

(** The calls that change a [UserManager]. *)
Inductive call :=
  | CreateUser (uuid name : string) (groupId : option string)
  | DeleteUser (userId : string)
  | SetCurrentUserById (userId : string)
  | SetCurrentUserByName (name : string).

Definition exec (c : call) : Op t unit :=
  match c with
  | CreateUser uuid name groupId => run! createUser uuid name groupId in ret tt
  | DeleteUser userId => deleteUser userId
  | SetCurrentUserById userId => setCurrentUserById userId
  | SetCurrentUserByName name => setCurrentUserByName name
  end.

(** The states the singleton can be in: [new], then any calls. *)
Inductive reachable : t -> Prop :=
  | reachable_new : reachable new
  | reachable_exec c s : reachable s -> reachable (exec c s).2.

(** Every user the manager knows, and the current one, has a group. *)
Definition has_group_inv (s : t) : Prop :=
  Forall (fun u => is_Some (User.groupId u)) (JSMap.values (users s))
  /\ forall u, currentUser s = Some u -> is_Some (User.groupId u).
End UserManager.

(* ===================================================================== *)
(** ** The file system: [Node], [FileSystem] *)
(* ===================================================================== *)

Inductive NodeType := File | Directory.

#[global] Instance NodeType_eq_dec : EqDecision NodeType.
Proof. solve_decision. Defined.

(** A reference to a [Node] object. *)
Abbreviation loc := nat.

Module Node.
(** [parent: Node | null]; [children: Map<string, Node>] holds references. *)
Record t := mk {
  name : string;
  nodeType : NodeType;
  content : string;
  parent : option loc;
  children : JSMap.t loc;
  permissions : Permissions.t;
}.

(** The constructor, before the object gets its address. *)
Definition new (name : string) (nodeType : NodeType) (permissions : Permissions.t) : t :=
  mk name nodeType EmptyString None JSMap.empty permissions.

Definition isFile (this : t) : bool := bool_decide (nodeType this = File).
Definition isDirectory (this : t) : bool := bool_decide (nodeType this = Directory).

(** Field assignments. *)
Definition set_name (v : string) (this : t) : t :=
  mk v (nodeType this) (content this) (parent this) (children this) (permissions this).
Definition set_content (v : string) (this : t) : t :=
  mk (name this) (nodeType this) v (parent this) (children this) (permissions this).
Definition set_parent (v : option loc) (this : t) : t :=
  mk (name this) (nodeType this) (content this) v (children this) (permissions this).
Definition set_children (f : JSMap.t loc -> JSMap.t loc) (this : t) : t :=
  mk (name this) (nodeType this) (content this) (parent this) (f (children this))
     (permissions this).
End Node.

Module FileSystem.
(** [root] and [cwd] are references into [heap], the [Node] objects made so
    far.  The type of [cwd] in the program is [Node], yet [changeDirectory]
    can store [null] in it (see [getNodeByName]), hence the [option]. *)
Record t := mk {
  heap : gmap loc Node.t;
  root : loc;
  cwd : option loc;
}.

Definition set_heap (f : gmap loc Node.t -> gmap loc Node.t) (this : t) : t :=
  mk (f (heap this)) (root this) (cwd this).
Definition set_cwd (v : option loc) (this : t) : t :=
  mk (heap this) (root this) v.
End FileSystem.

(** The process: the [UserManager] singleton and one [FileSystem]. *)
Record World := mkWorld {
  um : UserManager.t;
  fs : FileSystem.t;
}.

Definition set_fs (f : FileSystem.t -> FileSystem.t) (w : World) : World :=
  mkWorld (um w) (f (fs w)).

(** A [UserManager] method called on the singleton. *)
Definition onUserManager {A} (m : Op UserManager.t A) : Op World A :=
  fun w => let '(r, u) := m (um w) in (r, mkWorld u (fs w)).

(** *** Heap accesses *)

(** [new Node(...)]: a fresh address. *)
Definition alloc (n : Node.t) (h : gmap loc Node.t) : loc * gmap loc Node.t :=
  let l := fresh (dom h) in (l, <[l := n]> h).

Definition new_Node (name : string) (nodeType : NodeType) (permissions : Permissions.t)
    : Op World loc :=
  fun w =>
    let '(l, h) := alloc (Node.new name nodeType permissions) (FileSystem.heap (fs w)) in
    (Return l, set_fs (FileSystem.set_heap (fun _ => h)) w).

(** Reading the fields of the object at [l]. *)
Definition load (l : loc) : Op World Node.t :=
  let! h := gets (fun w => FileSystem.heap (fs w)) in
  match h !! l with
  | Some n => ret n
  | None => throw Stuck
  end.

(** Assigning to fields of the object at [l]. *)
Definition update (l : loc) (f : Node.t -> Node.t) : Op World unit :=
  let! n := load l in
  modify (set_fs (FileSystem.set_heap <[l := f n]>)).

(** Dereferencing a reference that may be [null]. *)
Definition nonnull (r : option loc) : Op World loc :=
  match r with
  | Some l => ret l
  | None => throw TypeError
  end.

(** [this.cwd.] followed by a property *)
Definition this_cwd : Op World loc :=
  let! r := gets (fun w => FileSystem.cwd (fs w)) in
  nonnull r.

(** [this.cwd.children] *)
Definition this_cwd_children : Op World (JSMap.t loc) :=
  let! c := this_cwd in
  let! n := load c in
  ret (Node.children n).

(** *** The helpers of the module *)

Definition getCurrentUser : Op World (option User.t) :=
  onUserManager UserManager.getCurrentUser.

Definition getDefaultPermissions : Op World Permissions.t :=
  let! user := getCurrentUser in
  ret (Permissions.mk (default EmptyString (User.id <$> user))
                      (default EmptyString (user ≫= User.groupId))
                      {[ READ; WRITE; EXECUTE ]}
                      {[ READ; WRITE; EXECUTE ]}
                      ∅).

(** [node.assertCurrentUserCanRead()] *)
Definition assertCurrentUserCanRead (this : loc) : Op World unit :=
  let! n := load this in
  let! user := getCurrentUser in
  if negb (Permissions.userHasPermission (Node.permissions n) READ user)
  then throw PermissionDenied
  else ret tt.

(** [node.assertCurrentUserCanWrite()] *)
Definition assertCurrentUserCanWrite (this : loc) : Op World unit :=
  let! n := load this in
  let! user := getCurrentUser in
  if negb (Permissions.userHasPermission (Node.permissions n) WRITE user)
  then throw PermissionDenied
  else ret tt.

(** *** [class FileSystem] *)

(** The constructor: a root directory owned by user "1", open to everyone,
    and [cwd = root]. *)
Definition new_FileSystem : FileSystem.t :=
  let '(r, h) :=
    alloc (Node.new EmptyString Directory (Permissions.mk "1" "1" rwx rwx rwx)) ∅ in
  FileSystem.mk h r (Some r).

(** [getPath(node)].  [fuel] bounds the iterations of the [while (node)]
    loop, and [None] says that the bound was reached; [path.unshift] puts
    the name in front. *)
Fixpoint getPath_while (fuel : nat) (h : gmap loc Node.t) (node : option loc)
    (path : list string) : option (Outcome (list string)) :=
  match node with
  | None => Some (Return path)
  | Some l =>
      match fuel with
      | O => None
      | S fuel' =>
          match h !! l with
          | None => Some (Throw Stuck)
          | Some n => getPath_while fuel' h (Node.parent n) (Node.name n :: path)
          end
      end
  end.

Definition getPath (fuel : nat) (node : option loc) (w : World)
    : option (Outcome string * World) :=
  if decide (node = Some (FileSystem.root (fs w))) then Some (Return "/", w)
  else
    match getPath_while fuel (FileSystem.heap (fs w)) node [] with
    | Some (Return path) => Some (Return (String.concat "/" path), w)
    | Some (Throw e) => Some (Throw e, w)
    | None => None
    end.

(** [getNodeByName(name)].  The result is declared [Node]; the [!] after
    [this.cwd.parent] is erased by the compiler, so the result is [null]
    when the parent is. *)
Definition getNodeByName (name : string) : Op World (option loc) :=
  if decide (name = "/") then
    let! r := gets (fun w => FileSystem.root (fs w)) in
    ret (Some r)
  else if decide (name = "..") then
    let! c := this_cwd in
    let! n := load c in
    ret (Node.parent n)
  else
    let! kids := this_cwd_children in
    if JSMap.has name kids then
      let! kids := this_cwd_children in
      ret (JSMap.get name kids)
    else throw FileOrDirectoryNotFound.

Definition changeDirectory (dir : string) : Op World unit :=
  let! n := getNodeByName dir in
  modify (set_fs (FileSystem.set_cwd n)).

(** [getCurrentDirectory()] *)
Definition getCurrentDirectory (fuel : nat) (w : World)
    : option (Outcome string * World) :=
  getPath fuel (FileSystem.cwd (fs w)) w.

Definition makeDirectory (name : string) : Op World unit :=
  let! c := this_cwd in
  run! assertCurrentUserCanWrite c in
  let! kids := this_cwd_children in
  if JSMap.has name kids then throw DirectoryAlreadyExists
  else
    let! perms := getDefaultPermissions in
    let! newDir := new_Node name Directory perms in
    let! c := gets (fun w => FileSystem.cwd (fs w)) in
    run! update newDir (Node.set_parent c) in
    let! c := this_cwd in
    update c (Node.set_children (JSMap.set name newDir)).

Definition listDirectory : Op World (list string) :=
  let! c := this_cwd in
  run! assertCurrentUserCanRead c in
  let! kids := this_cwd_children in
  ret (JSMap.keys kids).

(** [this.cwd.children.get(name)?.isDirectory()] is [undefined], hence
    falsy, when the name is absent. *)
Definition removeDirectory (name : string) : Op World unit :=
  let! c := this_cwd in
  run! assertCurrentUserCanWrite c in
  let! kids := this_cwd_children in
  let! isDir :=
    match JSMap.get name kids with
    | Some d => let! n := load d in ret (Node.isDirectory n)
    | None => ret false
    end in
  if isDir then
    let! c := this_cwd in
    update c (Node.set_children (JSMap.delete name))
  else throw DirectoryNotFoundOrNotADirectory.

Definition createFile (name : string) : Op World unit :=
  let! c := this_cwd in
  run! assertCurrentUserCanWrite c in
  let! kids := this_cwd_children in
  if JSMap.has name kids then throw FileAlreadyExists
  else
    let! perms := getDefaultPermissions in
    let! newFile := new_Node name File perms in
    let! c := gets (fun w => FileSystem.cwd (fs w)) in
    run! update newFile (Node.set_parent c) in
    let! c := this_cwd in
    update c (Node.set_children (JSMap.set name newFile)).

Definition writeFile (name : string) (content : string) : Op World unit :=
  let! kids := this_cwd_children in
  match JSMap.get name kids with
  | None => throw FileNotFound
  | Some node =>
      run! assertCurrentUserCanWrite node in
      let! n := load node in
      if negb (Node.isFile n) then throw CannotWriteNotAFile
      else update node (Node.set_content content)
  end.

Definition readFile (name : string) : Op World string :=
  let! kids := this_cwd_children in
  match JSMap.get name kids with
  | None => throw FileNotFound
  | Some node =>
      run! assertCurrentUserCanRead node in
      let! n := load node in
      if negb (Node.isFile n) then throw CannotReadNotAFile
      else
        let! n := load node in
        ret (Node.content n)
  end.

Definition moveFile (oldName newName : string) : Op World unit :=
  let! c := this_cwd in
  run! assertCurrentUserCanWrite c in
  let! kids := this_cwd_children in
  match JSMap.get oldName kids with
  | None => throw (FileDoesNotExist oldName)
  | Some fileNode =>
      run! assertCurrentUserCanWrite fileNode in
      let! kids := this_cwd_children in
      if JSMap.has newName kids then throw (NodeAlreadyExists newName)
      else
        let! c := this_cwd in
        run! update c (Node.set_children (JSMap.delete oldName)) in
        run! update fileNode (Node.set_name newName) in
        let! c := this_cwd in
        update c (Node.set_children (JSMap.set newName fileNode))
  end.

(** [find(name)]: the result is an array of references. *)
Definition find (name : string) : Op World (list loc) :=
  let results : list loc := [] in
  let! kids := this_cwd_children in
  if JSMap.has name kids then
    let! kids := this_cwd_children in
    ret (results ++ option_list (JSMap.get name kids))%list
  else ret results.

(** The calls that change a file system, for sequences of operations. *)
Inductive call :=
  | ChangeDirectory (dir : string)
  | MakeDirectory (name : string)
  | CreateFile (name : string)
  | RemoveDirectory (name : string)
  | WriteFile (name content : string)
  | MoveFile (oldName newName : string)
  | AsUser (c : UserManager.call).

Definition exec (c : call) : Op World unit :=
  match c with
  | ChangeDirectory dir => changeDirectory dir
  | MakeDirectory name => makeDirectory name
  | CreateFile name => createFile name
  | RemoveDirectory name => removeDirectory name
  | WriteFile name content => writeFile name content
  | MoveFile oldName newName => moveFile oldName newName
  | AsUser c => onUserManager (UserManager.exec c)
  end.

(** A sequence of calls, each [await]ed, stopping at the first throw. *)
Fixpoint execs (cs : list call) : Op World unit :=
  match cs with
  | [] => ret tt
  | c :: cs' => run! exec c in execs cs'
  end.

Definition new_World : World := mkWorld UserManager.new new_FileSystem.

(** What the current directory is: absent ([null]), a file, or a directory. *)
Definition cwdNode (w : World) : option Node.t :=
  FileSystem.cwd (fs w) ≫= fun c => FileSystem.heap (fs w) !! c.

(** The child of the current directory called [name], if any. *)
Definition child (name : string) (w : World) : option loc :=
  cwdNode w ≫= fun n => JSMap.get name (Node.children n).

(** The fields of that child. *)
Definition childNode (name : string) (w : World) : option Node.t :=
  child name w ≫= fun l => FileSystem.heap (fs w) !! l.

(** The users of the test suite: "test", the current user, and "test2". *)
Definition two_users : list call :=
  [AsUser (UserManager.CreateUser "id-1" "test" (Some "test"));
   AsUser (UserManager.CreateUser "id-2" "test2" (Some "test2"));
   AsUser (UserManager.SetCurrentUserById "id-1")].

(** In a new directory "school", a directory "science" with a file in it. *)
Definition science_with_notes : list call :=
  [MakeDirectory "school"; ChangeDirectory "school";
   MakeDirectory "science"; ChangeDirectory "science";
   CreateFile "notes.txt"; ChangeDirectory ".."].

(** The permissions [getDefaultPermissions] builds for a current user. *)
Definition defaultPermissionsOf (user : option User.t) : Permissions.t :=
  Permissions.mk (default EmptyString (User.id <$> user))
                 (default EmptyString (user ≫= User.groupId))
                 rwx rwx ∅.

(** The heap after a successful [makeDirectory] or [createFile] in the
    directory [n] at [c]: the new node at a fresh address, then its [parent]
    field, then the entry in the directory. *)
Definition heap_created (nodeType : NodeType) (name : string) (user : option User.t)
    (c : loc) (n : Node.t) (h : gmap loc Node.t) : gmap loc Node.t :=
  let l := fresh (dom h) in
  let new := Node.new name nodeType (defaultPermissionsOf user) in
  <[c := Node.set_children (JSMap.set name l) n]>
    (<[l := Node.set_parent (Some c) new]> (<[l := new]> h)).

(** What [makeDirectory] ([Directory], "Directory already exists") and
    [createFile] ([File], "File already exists") do. *)
Definition create_outcome (nodeType : NodeType) (err : Error) (name : string)
    (w : World) : Outcome unit * World :=
  match FileSystem.cwd (fs w) with
  | None => (Throw TypeError, w)
  | Some c =>
      match FileSystem.heap (fs w) !! c with
      | None => (Throw Stuck, w)
      | Some n =>
          if Permissions.userHasPermission (Node.permissions n) WRITE
               (UserManager.currentUser (um w))
          then
            if JSMap.has name (Node.children n) then (Throw err, w)
            else (Return tt,
                  set_fs (FileSystem.set_heap
                            (heap_created nodeType name
                               (UserManager.currentUser (um w)) c n)) w)
          else (Throw PermissionDenied, w)
      end
  end.

(** What [getNodeByName] computes from the tree; it reads nothing else. *)
Definition resolve (name : string) (f : FileSystem.t) : Outcome (option loc) :=
  if decide (name = "/") then Return (Some (FileSystem.root f))
  else
    match FileSystem.cwd f with
    | None => Throw TypeError
    | Some c =>
        match FileSystem.heap f !! c with
        | None => Throw Stuck
        | Some n =>
            if decide (name = "..") then Return (Node.parent n)
            else
              match JSMap.get name (Node.children n) with
              | Some l => Return (Some l)
              | None => Throw FileOrDirectoryNotFound
              end
        end
    end.

(** The heap after a successful [moveFile] of the child [l] of the
    directory at [c]: the entry leaves the directory, the node is renamed,
    the entry comes back under the new name. *)
Definition heap_moved (oldName newName : string) (c l : loc)
    (h : gmap loc Node.t) : gmap loc Node.t :=
  alter (Node.set_children (JSMap.set newName l)) c
    (alter (Node.set_name newName) l
       (alter (Node.set_children (JSMap.delete oldName)) c h)).

(** The references a node holds point into the heap [h]. *)
Definition node_closed (h : gmap loc Node.t) (n : Node.t) : Prop :=
  (forall p, Node.parent n = Some p -> is_Some (h !! p))
  /\ (forall k d, JSMap.get k (Node.children n) = Some d -> is_Some (h !! d)).

(** So do the references of the file system and of all its nodes. *)
Definition closed (f : FileSystem.t) : Prop :=
  is_Some (FileSystem.heap f !! FileSystem.root f)
  /\ (forall c, FileSystem.cwd f = Some c -> is_Some (FileSystem.heap f !! c))
  /\ (forall l n, FileSystem.heap f !! l = Some n -> node_closed (FileSystem.heap f) n).

(** The decision procedure of [hasPermission] in the words of the design
    document: owner tier, else group tier, else everyone tier; no identity
    means the everyone tier. *)
Definition hasPermission_spec (this : Permissions.t) (permission : Permission)
    (identity : option User.t) : bool :=
  match identity with
  | Some u =>
      if decide (User.id u = Permissions.owningUserId this) then
        bool_decide (permission ∈ Permissions.ownerPerms this)
      else if decide (User.groupId u = Some (Permissions.owningGroupId this)) then
        bool_decide (permission ∈ Permissions.groupPerms this)
      else bool_decide (permission ∈ Permissions.everyonePerms this)
  | None => bool_decide (permission ∈ Permissions.everyonePerms this)
  end.

(** An operation that leaves the state alone whenever it throws. *)
Definition atomic {A} (m : Op World A) : Prop :=
  forall w e w', m w = (Throw e, w') -> w' = w.

(** The current identity may write (read) the current directory. *)
Definition mayWriteCwd (w : World) : bool :=
  match cwdNode w with
  | Some n => Permissions.userHasPermission (Node.permissions n) WRITE
                (UserManager.currentUser (um w))
  | None => false
  end.

Definition mayReadCwd (w : World) : bool :=
  match cwdNode w with
  | Some n => Permissions.userHasPermission (Node.permissions n) READ
                (UserManager.currentUser (um w))
  | None => false
  end.

(* ===================================================================== *)
(** ** The states the program can be in, and the shape of the tree *)
(* ===================================================================== *)

(** The states of the process: a new one, then any calls, each of which
    returns or throws. *)
Inductive reachable : World -> Prop :=
  | reachable_new : reachable new_World
  | reachable_exec c w : reachable w -> reachable (exec c w).2.

(** The names from the top of the tree down to [node], along [parent]. *)
Inductive chain (h : gmap loc Node.t) : option loc -> list string -> Prop :=
  | chain_top : chain h None []
  | chain_up l n names :
      h !! l = Some n ->
      chain h (Node.parent n) names ->
      chain h (Some l) (names ++ [Node.name n])%list.

(** Every entry [k] of a node at [l] refers to a node named [k] whose parent
    is [l]. *)
Definition children_ok (h : gmap loc Node.t) : Prop :=
  forall l n k d,
    h !! l = Some n -> JSMap.get k (Node.children n) = Some d ->
    exists dn, h !! d = Some dn /\ Node.parent dn = Some l /\ Node.name dn = k.

(** The root is as the constructor made it, but for its children. *)
Definition root_ok (f : FileSystem.t) : Prop :=
  exists rn,
    FileSystem.heap f !! FileSystem.root f = Some rn
    /\ Node.parent rn = None
    /\ Node.name rn = EmptyString
    /\ Node.nodeType rn = Directory
    /\ Node.permissions rn = Permissions.mk "1" "1" rwx rwx rwx.

(** From every node, following [parent] ends. *)
Definition grounded (h : gmap loc Node.t) : Prop :=
  forall l, is_Some (h !! l) -> exists names, chain h (Some l) names.

(** Only files have content. *)
Definition content_ok (h : gmap loc Node.t) : Prop :=
  forall l n, h !! l = Some n -> Node.nodeType n = Directory -> Node.content n = EmptyString.

Definition tree_ok (f : FileSystem.t) : Prop :=
  closed f /\ root_ok f /\ children_ok (FileSystem.heap f)
  /\ grounded (FileSystem.heap f) /\ content_ok (FileSystem.heap f).

(** What a call that returns can do to the heap of the file system [f]. *)
Inductive heap_step (f : FileSystem.t) (user : option User.t)
    : gmap loc Node.t -> Prop :=
  | step_create nodeType name c cn :
      FileSystem.cwd f = Some c ->
      FileSystem.heap f !! c = Some cn ->
      JSMap.get name (Node.children cn) = None ->
      heap_step f user (heap_created nodeType name user c cn (FileSystem.heap f))
  | step_remove name c cn d dn :
      FileSystem.cwd f = Some c ->
      FileSystem.heap f !! c = Some cn ->
      JSMap.get name (Node.children cn) = Some d ->
      FileSystem.heap f !! d = Some dn ->
      Node.nodeType dn = Directory ->
      heap_step f user
        (<[c := Node.set_children (JSMap.delete name) cn]> (FileSystem.heap f))
  | step_write name content c cn l fn :
      FileSystem.cwd f = Some c ->
      FileSystem.heap f !! c = Some cn ->
      JSMap.get name (Node.children cn) = Some l ->
      FileSystem.heap f !! l = Some fn ->
      Node.nodeType fn = File ->
      heap_step f user (<[l := Node.set_content content fn]> (FileSystem.heap f))
  | step_move oldName newName c cn l fn :
      FileSystem.cwd f = Some c ->
      FileSystem.heap f !! c = Some cn ->
      JSMap.get oldName (Node.children cn) = Some l ->
      FileSystem.heap f !! l = Some fn ->
      JSMap.get newName (Node.children cn) = None ->
      heap_step f user (heap_moved oldName newName c l (FileSystem.heap f)).

(** What a call does to the file system: nothing, or it moves the current
    directory to what [getNodeByName] found, or it changes the heap. *)
Inductive fs_step (w : World) : FileSystem.t -> Prop :=
  | fs_same : fs_step w (fs w)
  | fs_cd dir r :
      resolve dir (fs w) = Return r ->
      fs_step w (FileSystem.set_cwd r (fs w))
  | fs_heap h' :
      heap_step (fs w) (UserManager.currentUser (um w)) h' ->
      fs_step w (FileSystem.set_heap (fun _ => h') (fs w)).

(** Every user is stored under its own id, and ids are stored once. *)
Definition users_ok (s : UserManager.t) : Prop :=
  NoDup (JSMap.keys (UserManager.users s))
  /\ forall k u, JSMap.get k (UserManager.users s) = Some u -> User.id u = k.

(* ===================================================================== *)
(** ** Lemmas on ordered maps *)
(* ===================================================================== *)

Section JSMap_lemmas.
Context {V : Type}.
Implicit Types (m : JSMap.t V) (k : string) (v : V).

Lemma has_true k m : JSMap.has k m = true <-> is_Some (JSMap.get k m).
Proof.
  unfold JSMap.has. destruct (JSMap.get k m); split; intros H; eauto.
  - discriminate.
  - by destruct H.
Qed.

Lemma has_false k m : JSMap.has k m = false <-> JSMap.get k m = None.
Proof. unfold JSMap.has. by destruct (JSMap.get k m). Qed.

Lemma get_set_eq k v m : JSMap.get k (JSMap.set k v m) = Some v.
Proof.
  induction m as [|[k' v'] m IH]; simpl.
  - by rewrite decide_True.
  - destruct (decide (k' = k)); simpl.
    + by rewrite decide_True.
    + by rewrite decide_False.
Qed.

Lemma get_set_ne k k' v m : k <> k' -> JSMap.get k' (JSMap.set k v m) = JSMap.get k' m.
Proof.
  intros Hne. induction m as [|[k0 v0] m IH]; simpl.
  - by rewrite decide_False.
  - destruct (decide (k0 = k)) as [->|]; simpl.
    + by rewrite !(decide_False (P := k = k')).
    + by rewrite IH.
Qed.

Lemma get_delete_eq k m : JSMap.get k (JSMap.delete k m) = None.
Proof.
  induction m as [|[k' v'] m IH]; simpl; [done|].
  destruct (decide (k' = k)); simpl; [done|]. by rewrite decide_False.
Qed.

Lemma get_delete_ne k k' m : k <> k' -> JSMap.get k' (JSMap.delete k m) = JSMap.get k' m.
Proof.
  intros Hne. induction m as [|[k0 v0] m IH]; simpl; [done|].
  destruct (decide (k0 = k)) as [->|]; simpl.
  - by rewrite decide_False.
  - by rewrite IH.
Qed.

Lemma elem_of_keys k m : k ∈ JSMap.keys m <-> is_Some (JSMap.get k m).
Proof.
  unfold JSMap.keys. induction m as [|[k' v'] m IH]; simpl.
  - split; [by intros ?%elem_of_nil | by intros [? ?]].
  - rewrite elem_of_cons. destruct (decide (k' = k)) as [->|].
    + split; eauto.
    + rewrite IH. split; [intros [?|?]; [congruence|done] | auto].
Qed.

Lemma keys_delete k m : k ∉ JSMap.keys (JSMap.delete k m).
Proof. rewrite elem_of_keys, get_delete_eq. by intros [? ?]. Qed.

(** Insertion order: a known key keeps its place, a new one goes last. *)
Lemma keys_set_known k v m :
  JSMap.has k m = true -> JSMap.keys (JSMap.set k v m) = JSMap.keys m.
Proof.
  unfold JSMap.has, JSMap.keys. induction m as [|[k' v'] m IH]; simpl; [done|].
  destruct (decide (k' = k)) as [->|]; simpl; [done|].
  intros H. f_equal. by apply IH.
Qed.

Lemma keys_set_new k v m :
  JSMap.has k m = false ->
  JSMap.keys (JSMap.set k v m) = (JSMap.keys m ++ [k])%list.
Proof.
  unfold JSMap.has, JSMap.keys. induction m as [|[k' v'] m IH]; simpl; [done|].
  destruct (decide (k' = k)) as [->|]; simpl; [done|].
  intros H. f_equal. by apply IH.
Qed.

Lemma keys_set_NoDup k v m :
  NoDup (JSMap.keys m) -> NoDup (JSMap.keys (JSMap.set k v m)).
Proof.
  intros Hm. destruct (JSMap.has k m) eqn:Hk.
  - by rewrite keys_set_known.
  - rewrite keys_set_new by done. apply NoDup_app. split; [done|].
    split; [|apply NoDup_singleton].
    intros k' Hin ->%list_elem_of_singleton.
    apply elem_of_keys in Hin as [? Hin]. apply has_false in Hk. congruence.
Qed.
End JSMap_lemmas.

(* ===================================================================== *)
(** ** How the building blocks run *)
(* ===================================================================== *)

Lemma this_cwd_run w :
  this_cwd w = match FileSystem.cwd (fs w) with
               | Some c => (Return c, w)
               | None => (Throw TypeError, w)
               end.
Proof. unfold this_cwd, bind, gets, nonnull. by destruct (FileSystem.cwd (fs w)). Qed.

Lemma load_run l w :
  load l w = match FileSystem.heap (fs w) !! l with
             | Some n => (Return n, w)
             | None => (Throw Stuck, w)
             end.
Proof. unfold load, bind, gets. by destruct (FileSystem.heap (fs w) !! l). Qed.

Lemma update_run l f w :
  update l f w = match FileSystem.heap (fs w) !! l with
                 | Some n => (Return tt, set_fs (FileSystem.set_heap <[l := f n]>) w)
                 | None => (Throw Stuck, w)
                 end.
Proof.
  unfold update, bind. rewrite load_run.
  by destruct (FileSystem.heap (fs w) !! l).
Qed.

Lemma getCurrentUser_run w :
  getCurrentUser w = (Return (UserManager.currentUser (um w)), w).
Proof. by destruct w. Qed.

Lemma this_cwd_children_run w :
  this_cwd_children w =
    match FileSystem.cwd (fs w) with
    | Some c => match FileSystem.heap (fs w) !! c with
                | Some n => (Return (Node.children n), w)
                | None => (Throw Stuck, w)
                end
    | None => (Throw TypeError, w)
    end.
Proof.
  unfold this_cwd_children, bind. rewrite this_cwd_run.
  destruct (FileSystem.cwd (fs w)); [|done]. rewrite load_run.
  by destruct (FileSystem.heap (fs w) !! _).
Qed.

Lemma assertCurrentUserCanWrite_run l w :
  assertCurrentUserCanWrite l w =
    match FileSystem.heap (fs w) !! l with
    | Some n =>
        if Permissions.userHasPermission (Node.permissions n) WRITE
             (UserManager.currentUser (um w))
        then (Return tt, w) else (Throw PermissionDenied, w)
    | None => (Throw Stuck, w)
    end.
Proof.
  unfold assertCurrentUserCanWrite, bind. rewrite load_run.
  destruct (FileSystem.heap (fs w) !! l); [|done]. rewrite getCurrentUser_run.
  by destruct (Permissions.userHasPermission _ _ _).
Qed.

Lemma assertCurrentUserCanRead_run l w :
  assertCurrentUserCanRead l w =
    match FileSystem.heap (fs w) !! l with
    | Some n =>
        if Permissions.userHasPermission (Node.permissions n) READ
             (UserManager.currentUser (um w))
        then (Return tt, w) else (Throw PermissionDenied, w)
    | None => (Throw Stuck, w)
    end.
Proof.
  unfold assertCurrentUserCanRead, bind. rewrite load_run.
  destruct (FileSystem.heap (fs w) !! l); [|done]. rewrite getCurrentUser_run.
  by destruct (Permissions.userHasPermission _ _ _).
Qed.

Lemma getDefaultPermissions_run w :
  getDefaultPermissions w =
    (Return (Permissions.mk
               (default EmptyString (User.id <$> UserManager.currentUser (um w)))
               (default EmptyString (UserManager.currentUser (um w) ≫= User.groupId))
               rwx rwx ∅), w).
Proof. unfold getDefaultPermissions, bind. by rewrite getCurrentUser_run. Qed.

(** The steps of an operation, one at a time. *)
Ltac step :=
  try unfold bind at 1;
  first [ rewrite this_cwd_children_run | rewrite this_cwd_run
        | rewrite assertCurrentUserCanWrite_run | rewrite assertCurrentUserCanRead_run
        | rewrite getDefaultPermissions_run | rewrite getCurrentUser_run
        | rewrite update_run | rewrite load_run ];
  simpl.

Lemma fresh_lookup (h : gmap loc Node.t) : h !! fresh (dom h) = None.
Proof. apply not_elem_of_dom, is_fresh. Qed.

Lemma new_Node_run name ty perms w :
  new_Node name ty perms w =
    (Return (fresh (dom (FileSystem.heap (fs w)))),
     set_fs (FileSystem.set_heap
               <[fresh (dom (FileSystem.heap (fs w))) := Node.new name ty perms]>) w).
Proof. by destruct w as [u [h r c]]. Qed.

(* ===================================================================== *)
(** ** What each operation does, in one equation *)
(* ===================================================================== *)

Lemma makeDirectory_run name w :
  makeDirectory name w = create_outcome Directory DirectoryAlreadyExists name w.
Proof.
  destruct w as [u [h r [c|]]]; unfold makeDirectory, create_outcome; step; [|done].
  step. destruct (h !! c) as [n|] eqn:Hc; [|done].
  destruct (Permissions.userHasPermission _ _ _) eqn:Hp; simpl; [|done].
  step. rewrite Hc. destruct (JSMap.has name _) eqn:Hhas; [done|].
  step. unfold bind at 1. rewrite new_Node_run. simpl.
  unfold bind at 1. simpl. step. rewrite lookup_insert_eq.
  step. step.
  assert (fresh (dom h) <> c) as Hne.
  { intros <-. by rewrite fresh_lookup in Hc. }
  rewrite !lookup_insert_ne, Hc by done.
  reflexivity.
Qed.

Lemma createFile_run name w :
  createFile name w = create_outcome File FileAlreadyExists name w.
Proof.
  destruct w as [u [h r [c|]]]; unfold createFile, create_outcome; step; [|done].
  step. destruct (h !! c) as [n|] eqn:Hc; [|done].
  destruct (Permissions.userHasPermission _ _ _) eqn:Hp; simpl; [|done].
  step. rewrite Hc. destruct (JSMap.has name _) eqn:Hhas; [done|].
  step. unfold bind at 1. rewrite new_Node_run. simpl.
  unfold bind at 1. simpl. step. rewrite lookup_insert_eq.
  step. step.
  assert (fresh (dom h) <> c) as Hne.
  { intros <-. by rewrite fresh_lookup in Hc. }
  rewrite !lookup_insert_ne, Hc by done.
  reflexivity.
Qed.

Lemma getNodeByName_run name w : getNodeByName name w = (resolve name (fs w), w).
Proof.
  unfold getNodeByName, resolve. destruct (decide (name = "/")); [done|].
  destruct (decide (name = "..")).
  - step. destruct (FileSystem.cwd (fs w)); [|done]. step.
    by destruct (FileSystem.heap (fs w) !! _).
  - step. destruct (FileSystem.cwd (fs w)) as [c|] eqn:Hc; [|done].
    destruct (FileSystem.heap (fs w) !! c) as [cn|] eqn:Hn; [|done].
    unfold JSMap.has. destruct (JSMap.get name (Node.children cn)) eqn:Hg; [|done].
    step. by rewrite Hc, Hn, Hg.
Qed.

Lemma changeDirectory_run dir w :
  changeDirectory dir w =
    match resolve dir (fs w) with
    | Return n => (Return tt, set_fs (FileSystem.set_cwd n) w)
    | Throw e => (Throw e, w)
    end.
Proof.
  unfold changeDirectory, bind. rewrite getNodeByName_run.
  by destruct (resolve dir (fs w)).
Qed.

Lemma listDirectory_run w :
  listDirectory w =
    match FileSystem.cwd (fs w) with
    | None => (Throw TypeError, w)
    | Some c =>
        match FileSystem.heap (fs w) !! c with
        | None => (Throw Stuck, w)
        | Some n =>
            if Permissions.userHasPermission (Node.permissions n) READ
                 (UserManager.currentUser (um w))
            then (Return (JSMap.keys (Node.children n)), w)
            else (Throw PermissionDenied, w)
        end
    end.
Proof.
  unfold listDirectory. step. destruct (FileSystem.cwd (fs w)) as [c|] eqn:Hc; [|done].
  step. destruct (FileSystem.heap (fs w) !! c) as [n|] eqn:Hn; [|done].
  destruct (Permissions.userHasPermission _ _ _); [|done].
  step. by rewrite Hc, Hn.
Qed.

Lemma removeDirectory_run name w :
  removeDirectory name w =
    match FileSystem.cwd (fs w) with
    | None => (Throw TypeError, w)
    | Some c =>
        match FileSystem.heap (fs w) !! c with
        | None => (Throw Stuck, w)
        | Some n =>
            if Permissions.userHasPermission (Node.permissions n) WRITE
                 (UserManager.currentUser (um w))
            then
              match JSMap.get name (Node.children n) with
              | None => (Throw DirectoryNotFoundOrNotADirectory, w)
              | Some d =>
                  match FileSystem.heap (fs w) !! d with
                  | None => (Throw Stuck, w)
                  | Some dn =>
                      if Node.isDirectory dn then
                        (Return tt,
                         set_fs (FileSystem.set_heap
                           <[c := Node.set_children (JSMap.delete name) n]>) w)
                      else (Throw DirectoryNotFoundOrNotADirectory, w)
                  end
              end
            else (Throw PermissionDenied, w)
        end
    end.
Proof.
  unfold removeDirectory. step. destruct (FileSystem.cwd (fs w)) as [c|] eqn:Hc; [|done].
  step. destruct (FileSystem.heap (fs w) !! c) as [n|] eqn:Hn; [|done].
  destruct (Permissions.userHasPermission _ _ _); [|done].
  step. rewrite Hc, Hn. unfold bind at 1.
  destruct (JSMap.get name (Node.children n)) as [d|]; [|done].
  step. destruct (FileSystem.heap (fs w) !! d) as [dn|]; [|done].
  unfold ret at 1. destruct (Node.isDirectory dn); [|done].
  step. rewrite Hc. step. by rewrite Hn.
Qed.

Lemma update_run_alter l f w :
  update l f w = match FileSystem.heap (fs w) !! l with
                 | Some _ => (Return tt, set_fs (FileSystem.set_heap (alter f l)) w)
                 | None => (Throw Stuck, w)
                 end.
Proof.
  rewrite update_run. destruct w as [u [h r c]]; simpl.
  destruct (h !! l) as [n|] eqn:Hl; [|done].
  unfold set_fs, FileSystem.set_heap; simpl. do 3 f_equal.
  apply map_eq; intros j. rewrite lookup_insert, lookup_alter.
  case_decide; subst; [by rewrite Hl | done].
Qed.

Lemma writeFile_run name content w :
  writeFile name content w =
    match FileSystem.cwd (fs w) with
    | None => (Throw TypeError, w)
    | Some c =>
        match FileSystem.heap (fs w) !! c with
        | None => (Throw Stuck, w)
        | Some n =>
            match JSMap.get name (Node.children n) with
            | None => (Throw FileNotFound, w)
            | Some l =>
                match FileSystem.heap (fs w) !! l with
                | None => (Throw Stuck, w)
                | Some f =>
                    if Permissions.userHasPermission (Node.permissions f) WRITE
                         (UserManager.currentUser (um w))
                    then
                      if Node.isFile f then
                        (Return tt,
                         set_fs (FileSystem.set_heap
                                   <[l := Node.set_content content f]>) w)
                      else (Throw CannotWriteNotAFile, w)
                    else (Throw PermissionDenied, w)
                end
            end
        end
    end.
Proof.
  unfold writeFile. step. destruct (FileSystem.cwd (fs w)) as [c|]; [|done].
  destruct (FileSystem.heap (fs w) !! c) as [n|]; [|done].
  destruct (JSMap.get name (Node.children n)) as [l|]; [|done].
  step. destruct (FileSystem.heap (fs w) !! l) as [f|] eqn:Hl; [|done].
  destruct (Permissions.userHasPermission _ _ _); [|done].
  step. rewrite Hl. destruct (Node.isFile f); simpl; [|done].
  step. by rewrite Hl.
Qed.

Lemma readFile_run name w :
  readFile name w =
    match FileSystem.cwd (fs w) with
    | None => (Throw TypeError, w)
    | Some c =>
        match FileSystem.heap (fs w) !! c with
        | None => (Throw Stuck, w)
        | Some n =>
            match JSMap.get name (Node.children n) with
            | None => (Throw FileNotFound, w)
            | Some l =>
                match FileSystem.heap (fs w) !! l with
                | None => (Throw Stuck, w)
                | Some f =>
                    if Permissions.userHasPermission (Node.permissions f) READ
                         (UserManager.currentUser (um w))
                    then
                      if Node.isFile f then (Return (Node.content f), w)
                      else (Throw CannotReadNotAFile, w)
                    else (Throw PermissionDenied, w)
                end
            end
        end
    end.
Proof.
  unfold readFile. step. destruct (FileSystem.cwd (fs w)) as [c|]; [|done].
  destruct (FileSystem.heap (fs w) !! c) as [n|]; [|done].
  destruct (JSMap.get name (Node.children n)) as [l|]; [|done].
  step. destruct (FileSystem.heap (fs w) !! l) as [f|] eqn:Hl; [|done].
  destruct (Permissions.userHasPermission _ _ _); [|done].
  step. rewrite Hl. destruct (Node.isFile f); simpl; [|done].
  step. by rewrite Hl.
Qed.

Lemma moveFile_run oldName newName w :
  moveFile oldName newName w =
    match FileSystem.cwd (fs w) with
    | None => (Throw TypeError, w)
    | Some c =>
        match FileSystem.heap (fs w) !! c with
        | None => (Throw Stuck, w)
        | Some n =>
            if Permissions.userHasPermission (Node.permissions n) WRITE
                 (UserManager.currentUser (um w))
            then
              match JSMap.get oldName (Node.children n) with
              | None => (Throw (FileDoesNotExist oldName), w)
              | Some l =>
                  match FileSystem.heap (fs w) !! l with
                  | None => (Throw Stuck, w)
                  | Some f =>
                      if Permissions.userHasPermission (Node.permissions f) WRITE
                           (UserManager.currentUser (um w))
                      then
                        if JSMap.has newName (Node.children n)
                        then (Throw (NodeAlreadyExists newName), w)
                        else (Return tt,
                              set_fs (FileSystem.set_heap
                                        (heap_moved oldName newName c l)) w)
                      else (Throw PermissionDenied, w)
                  end
              end
            else (Throw PermissionDenied, w)
        end
    end.
Proof.
  destruct w as [u [h r [c|]]]; unfold moveFile; step; [|done].
  step. destruct (h !! c) as [n|] eqn:Hc; [|done].
  destruct (Permissions.userHasPermission _ _ _); simpl; [|done].
  step. rewrite Hc. destruct (JSMap.get oldName (Node.children n)) as [l|]; [|done].
  step. destruct (h !! l) as [f|] eqn:Hl; [|done].
  destruct (Permissions.userHasPermission _ _ _); simpl; [|done].
  step. rewrite Hc. destruct (JSMap.has newName (Node.children n)); [done|].
  step. unfold bind at 1. rewrite update_run_alter. simpl. rewrite Hc.
  unfold bind at 1. rewrite update_run_alter. simpl.
  rewrite lookup_alter. destruct (decide (c = l)) as [->|Hne].
  - rewrite Hl. simpl. step. rewrite update_run_alter. simpl.
    by rewrite !lookup_alter_eq, Hl.
  - rewrite Hl. step. rewrite update_run_alter. simpl.
    by rewrite lookup_alter_ne, lookup_alter_eq, Hc by done.
Qed.

Lemma find_run name w :
  find name w =
    match FileSystem.cwd (fs w) with
    | None => (Throw TypeError, w)
    | Some c =>
        match FileSystem.heap (fs w) !! c with
        | None => (Throw Stuck, w)
        | Some n => (Return (option_list (JSMap.get name (Node.children n))), w)
        end
    end.
Proof.
  unfold find. step. destruct (FileSystem.cwd (fs w)) as [c|] eqn:Hc; [|done].
  destruct (FileSystem.heap (fs w) !! c) as [n|] eqn:Hn; [|done].
  unfold JSMap.has. destruct (JSMap.get name (Node.children n)) eqn:Hg.
  - step. by rewrite Hc, Hn, Hg.
  - done.
Qed.

(* ===================================================================== *)
(** ** References stay inside the heap *)
(* ===================================================================== *)

Section JSMap_inversion.
Context {V : Type}.
Implicit Types (m : JSMap.t V) (k : string) (v : V).

Lemma get_delete_Some k k' m v :
  JSMap.get k' (JSMap.delete k m) = Some v -> JSMap.get k' m = Some v.
Proof.
  destruct (decide (k = k')) as [->|Hne].
  - by rewrite get_delete_eq.
  - by rewrite get_delete_ne.
Qed.

Lemma get_set_Some k k' v m v' :
  JSMap.get k' (JSMap.set k v m) = Some v' -> v' = v \/ JSMap.get k' m = Some v'.
Proof.
  destruct (decide (k = k')) as [->|Hne].
  - rewrite get_set_eq. intros [= ->]. by left.
  - rewrite get_set_ne by done. by right.
Qed.
End JSMap_inversion.

Lemma node_closed_mono (h h' : gmap loc Node.t) n :
  (forall l, is_Some (h !! l) -> is_Some (h' !! l)) ->
  node_closed h n -> node_closed h' n.
Proof. intros Hmono [Hp Hk]. split; eauto. Qed.

Lemma closed_set_heap g f :
  closed f ->
  (forall l, is_Some (FileSystem.heap f !! l) -> is_Some (g (FileSystem.heap f) !! l)) ->
  (forall l n, g (FileSystem.heap f) !! l = Some n -> node_closed (g (FileSystem.heap f)) n) ->
  closed (FileSystem.set_heap g f).
Proof. intros (Hr & Hc & Hn) Hmono Hnodes. split; [|split]; simpl; eauto. Qed.

Lemma closed_new_FileSystem : closed new_FileSystem.
Proof.
  split; [|split].
  - by eexists.
  - intros c [= <-]. by eexists.
  - intros l n. unfold new_FileSystem, alloc. simpl.
    intros [<- <-]%lookup_singleton_Some. split; [done|]. simpl. done.
Qed.

Lemma closed_parent f l n p :
  closed f -> FileSystem.heap f !! l = Some n -> Node.parent n = Some p ->
  is_Some (FileSystem.heap f !! p).
Proof. intros (_ & _ & Hn) Hl Hp. destruct (Hn l n Hl) as [Hpar _]. eauto. Qed.

Lemma closed_child f l n k d :
  closed f -> FileSystem.heap f !! l = Some n ->
  JSMap.get k (Node.children n) = Some d ->
  is_Some (FileSystem.heap f !! d).
Proof. intros (_ & _ & Hn) Hl Hd. destruct (Hn l n Hl) as [_ Hkids]. eauto. Qed.

Lemma closed_node f l n :
  closed f -> FileSystem.heap f !! l = Some n -> node_closed (FileSystem.heap f) n.
Proof. intros (_ & _ & Hn). apply Hn. Qed.

Lemma closed_set_cwd r f :
  closed f ->
  (forall c, r = Some c -> is_Some (FileSystem.heap f !! c)) ->
  closed (FileSystem.set_cwd r f).
Proof. intros (Hr & Hc & Hn) Hnew. split; [|split]; simpl; eauto. Qed.

Lemma changeDirectory_closed dir w :
  closed (fs w) -> closed (fs (changeDirectory dir w).2).
Proof.
  intros H. rewrite changeDirectory_run. unfold resolve.
  destruct (decide (dir = "/")).
  { apply closed_set_cwd; [done|]. intros ? [= <-]. by destruct H. }
  destruct (FileSystem.cwd (fs w)) as [c|] eqn:Hcwd; [|done].
  destruct (FileSystem.heap (fs w) !! c) as [cn|] eqn:Hcn; [|done].
  destruct (decide (dir = "..")).
  { apply closed_set_cwd; [done|]. intros p Hp. by eapply closed_parent. }
  destruct (JSMap.get dir (Node.children cn)) as [d|] eqn:Hd; [|done].
  apply closed_set_cwd; [done|]. intros ? [= <-]. by eapply closed_child.
Qed.

Lemma create_outcome_closed nodeType err name w :
  closed (fs w) -> closed (fs (create_outcome nodeType err name w).2).
Proof.
  intros H. unfold create_outcome.
  destruct (FileSystem.cwd (fs w)) as [c|] eqn:Hcwd; [|done].
  destruct (FileSystem.heap (fs w) !! c) as [cn|] eqn:Hcn; [|done].
  destruct (Permissions.userHasPermission _ _ _); [|done].
  destruct (JSMap.has name _); [done|]. simpl.
  assert (forall l, is_Some (FileSystem.heap (fs w) !! l) ->
            is_Some (heap_created nodeType name (UserManager.currentUser (um w)) c cn
                       (FileSystem.heap (fs w)) !! l)) as Hmono.
  { intros l Hl. unfold heap_created. rewrite !lookup_insert_is_Some'. auto. }
  apply closed_set_heap; [done.. |].
  intros l n. unfold heap_created.
  rewrite !lookup_insert_Some.
  intros [[<- <-]|[Hne [[<- <-]|[_ [[<- <-]|[_ Hl]]]]]].
  - split; simpl.
    + intros p Hp. apply Hmono. by eapply closed_parent.
    + intros k d [->|Hd]%get_set_Some.
      * unfold heap_created. rewrite !lookup_insert_is_Some'. auto.
      * apply Hmono. by eapply closed_child.
  - split; simpl; [|done]. intros p [= <-]. apply Hmono. by eexists.
  - split; simpl; done.
  - eapply node_closed_mono; [exact Hmono|]. by eapply closed_node.
Qed.

Lemma removeDirectory_closed name w :
  closed (fs w) -> closed (fs (removeDirectory name w).2).
Proof.
  intros H. rewrite removeDirectory_run.
  destruct (FileSystem.cwd (fs w)) as [c|] eqn:Hcwd; [|done].
  destruct (FileSystem.heap (fs w) !! c) as [cn|] eqn:Hcn; [|done].
  destruct (Permissions.userHasPermission _ _ _); [|done].
  destruct (JSMap.get name (Node.children cn)) as [d|]; [|done].
  destruct (FileSystem.heap (fs w) !! d) as [dn|]; [|done].
  destruct (Node.isDirectory dn); [|done]. simpl.
  assert (forall l, is_Some (FileSystem.heap (fs w) !! l) ->
            is_Some (<[c := Node.set_children (JSMap.delete name) cn]>
                       (FileSystem.heap (fs w)) !! l)) as Hmono.
  { intros l Hl. rewrite lookup_insert_is_Some'. auto. }
  apply closed_set_heap; [done.. |].
  intros l nd. rewrite lookup_insert_Some. intros [[<- <-]|[_ Hl]].
  - split; simpl.
    + intros p Hp. apply Hmono. by eapply closed_parent.
    + intros k d' Hd%get_delete_Some. apply Hmono. by eapply closed_child.
  - eapply node_closed_mono; [exact Hmono|]. by eapply closed_node.
Qed.

Lemma writeFile_closed name content w :
  closed (fs w) -> closed (fs (writeFile name content w).2).
Proof.
  intros H. rewrite writeFile_run.
  destruct (FileSystem.cwd (fs w)) as [c|] eqn:Hcwd; [|done].
  destruct (FileSystem.heap (fs w) !! c) as [cn|] eqn:Hcn; [|done].
  destruct (JSMap.get name (Node.children cn)) as [f|]; [|done].
  destruct (FileSystem.heap (fs w) !! f) as [fn|] eqn:Hfn; [|done].
  destruct (Permissions.userHasPermission _ _ _); [|done].
  destruct (Node.isFile fn); [|done]. simpl.
  assert (forall l, is_Some (FileSystem.heap (fs w) !! l) ->
            is_Some (<[f := Node.set_content content fn]>
                       (FileSystem.heap (fs w)) !! l)) as Hmono.
  { intros l Hl. rewrite lookup_insert_is_Some'. auto. }
  apply closed_set_heap; [done.. |].
  intros l nd. rewrite lookup_insert_Some. intros [[<- <-]|[_ Hl]].
  - split; simpl.
    + intros p Hp. apply Hmono. by eapply closed_parent.
    + intros k d Hd. apply Hmono. by eapply closed_child.
  - eapply node_closed_mono; [exact Hmono|]. by eapply closed_node.
Qed.

Lemma moveFile_closed oldName newName w :
  closed (fs w) -> closed (fs (moveFile oldName newName w).2).
Proof.
  intros H. rewrite moveFile_run.
  destruct (FileSystem.cwd (fs w)) as [c|] eqn:Hcwd; [|done].
  destruct (FileSystem.heap (fs w) !! c) as [cn|] eqn:Hcn; [|done].
  destruct (Permissions.userHasPermission _ _ _); [|done].
  destruct (JSMap.get oldName (Node.children cn)) as [f|] eqn:Hf; [|done].
  destruct (FileSystem.heap (fs w) !! f) as [fn|] eqn:Hfn; [|done].
  destruct (Permissions.userHasPermission _ _ _); [|done].
  destruct (JSMap.has newName _); [done|]. simpl.
  assert (forall l, is_Some (FileSystem.heap (fs w) !! l) ->
            is_Some (heap_moved oldName newName c f (FileSystem.heap (fs w)) !! l))
    as Hmono.
  { intros l Hl. unfold heap_moved. by rewrite !lookup_alter_is_Some. }
  apply closed_set_heap; [done.. |].
  intros l nd Hl.
  assert (exists nd0,
            FileSystem.heap (fs w) !! l = Some nd0
            /\ Node.parent nd = Node.parent nd0
            /\ forall k d, JSMap.get k (Node.children nd) = Some d ->
                 d = f \/ JSMap.get k (Node.children nd0) = Some d)
    as (nd0 & Hl0 & Hpar & Hkids).
  { unfold heap_moved in Hl.
    destruct (decide (l = c)) as [->|Hlc].
    - exists cn. split; [done|]. rewrite lookup_alter_eq in Hl.
      destruct (decide (f = c)) as [->|Hfc].
      + rewrite !lookup_alter_eq, Hcn in Hl. simpl in Hl. injection Hl as <-.
        split; [done|]. simpl. intros k d.
        intros [->|Hd%get_delete_Some]%get_set_Some; auto.
      + rewrite lookup_alter_ne, lookup_alter_eq, Hcn in Hl by done.
        simpl in Hl. injection Hl as <-.
        split; [done|]. simpl. intros k d.
        intros [->|Hd%get_delete_Some]%get_set_Some; auto.
    - rewrite lookup_alter_ne in Hl by done.
      destruct (decide (l = f)) as [->|Hlf].
      + exists fn. split; [done|].
        rewrite lookup_alter_eq, lookup_alter_ne, Hfn in Hl by done.
        simpl in Hl. injection Hl as <-. split; [done|]. simpl. auto.
      + rewrite !lookup_alter_ne in Hl by done. exists nd. auto. }
  split.
  - intros p Hp. rewrite Hpar in Hp. apply Hmono. by eapply closed_parent.
  - intros k d [->|Hd]%Hkids; apply Hmono; [by eexists | by eapply closed_child].
Qed.

Lemma exec_closed c w : closed (fs w) -> closed (fs (exec c w).2).
Proof.
  destruct c; simpl.
  - apply changeDirectory_closed.
  - rewrite makeDirectory_run. apply create_outcome_closed.
  - rewrite createFile_run. apply create_outcome_closed.
  - apply removeDirectory_closed.
  - apply writeFile_closed.
  - apply moveFile_closed.
  - unfold onUserManager. by destruct (UserManager.exec _ _).
Qed.

Lemma execs_closed cs w : closed (fs w) -> closed (fs (execs cs w).2).
Proof.
  revert w. induction cs as [|c cs IH]; intros w H; simpl; [done|].
  unfold bind. pose proof (exec_closed c w H) as H1.
  destruct (exec c w) as [[[]|e] w1]; simpl in *; auto.
Qed.

(** Every file system that calls can build has its references in its heap. *)
Lemma reachable_closed cs : closed (fs (execs cs new_World).2).
Proof. apply execs_closed, closed_new_FileSystem. Qed.

(** With the references in the heap, [Stuck] is never thrown. *)
Lemma closed_not_Stuck w :
  closed (fs w) ->
  (forall c, (exec c w).1 <> Throw Stuck)
  /\ (listDirectory w).1 <> Throw Stuck
  /\ (forall name, (readFile name w).1 <> Throw Stuck)
  /\ (forall name, (find name w).1 <> Throw Stuck).
Proof.
  intros H.
  assert (forall c, FileSystem.cwd (fs w) = Some c ->
            FileSystem.heap (fs w) !! c <> None) as Hcwd.
  { intros c Hc Hnone. destruct H as (_ & Hc' & _).
    destruct (Hc' c Hc) as [? ?]. congruence. }
  assert (forall c cn k d, FileSystem.heap (fs w) !! c = Some cn ->
            JSMap.get k (Node.children cn) = Some d ->
            FileSystem.heap (fs w) !! d <> None) as Hkid.
  { intros c cn k d Hc Hd Hnone.
    destruct (closed_child _ _ _ _ _ H Hc Hd) as [? ?]. congruence. }
  split; [|split; [|split]].
  - intros [dir|name|name|name|name content|oldName newName|c]; simpl.
    + rewrite changeDirectory_run. unfold resolve.
      destruct (decide (dir = "/")); [done|].
      destruct (FileSystem.cwd (fs w)) as [c|] eqn:Hc; [|done].
      destruct (FileSystem.heap (fs w) !! c) as [cn|] eqn:Hcn; [|by destruct (Hcwd c)].
      repeat (case_match; simplify_eq/=); done.
    + rewrite makeDirectory_run. unfold create_outcome.
      destruct (FileSystem.cwd (fs w)) as [c|] eqn:Hc; [|done].
      destruct (FileSystem.heap (fs w) !! c) as [cn|] eqn:Hcn; [|by destruct (Hcwd c)].
      repeat (case_match; simplify_eq/=); done.
    + rewrite createFile_run. unfold create_outcome.
      destruct (FileSystem.cwd (fs w)) as [c|] eqn:Hc; [|done].
      destruct (FileSystem.heap (fs w) !! c) as [cn|] eqn:Hcn; [|by destruct (Hcwd c)].
      repeat (case_match; simplify_eq/=); done.
    + rewrite removeDirectory_run.
      destruct (FileSystem.cwd (fs w)) as [c|] eqn:Hc; [|done].
      destruct (FileSystem.heap (fs w) !! c) as [cn|] eqn:Hcn; [|by destruct (Hcwd c)].
      destruct (Permissions.userHasPermission _ _ _); [|done].
      destruct (JSMap.get name (Node.children cn)) as [d|] eqn:Hd; [|done].
      destruct (FileSystem.heap (fs w) !! d) eqn:Hdn; [|by destruct (Hkid c cn name d)].
      repeat (case_match; simplify_eq/=); done.
    + rewrite writeFile_run.
      destruct (FileSystem.cwd (fs w)) as [c|] eqn:Hc; [|done].
      destruct (FileSystem.heap (fs w) !! c) as [cn|] eqn:Hcn; [|by destruct (Hcwd c)].
      destruct (JSMap.get name (Node.children cn)) as [d|] eqn:Hd; [|done].
      destruct (FileSystem.heap (fs w) !! d) eqn:Hdn; [|by destruct (Hkid c cn name d)].
      repeat (case_match; simplify_eq/=); done.
    + rewrite moveFile_run.
      destruct (FileSystem.cwd (fs w)) as [c|] eqn:Hc; [|done].
      destruct (FileSystem.heap (fs w) !! c) as [cn|] eqn:Hcn; [|by destruct (Hcwd c)].
      destruct (Permissions.userHasPermission _ _ _); [|done].
      destruct (JSMap.get oldName (Node.children cn)) as [d|] eqn:Hd; [|done].
      destruct (FileSystem.heap (fs w) !! d) eqn:Hdn; [|by destruct (Hkid c cn oldName d)].
      repeat (case_match; simplify_eq/=); done.
    + unfold onUserManager.
      destruct c as [uuid name groupId|userId|userId|name]; simpl; [done| |done|].
      * unfold UserManager.deleteUser, bind, gets. simpl.
        by destruct (JSMap.has userId _).
      * unfold UserManager.setCurrentUserByName, UserManager.findUserByName, bind, gets, ret.
        simpl. by destruct (List.find _ _).
  - rewrite listDirectory_run.
    destruct (FileSystem.cwd (fs w)) as [c|] eqn:Hc; [|done].
    destruct (FileSystem.heap (fs w) !! c) as [cn|] eqn:Hcn; [|by destruct (Hcwd c)].
    repeat (case_match; simplify_eq/=); done.
  - intros name. rewrite readFile_run.
    destruct (FileSystem.cwd (fs w)) as [c|] eqn:Hc; [|done].
    destruct (FileSystem.heap (fs w) !! c) as [cn|] eqn:Hcn; [|by destruct (Hcwd c)].
    destruct (JSMap.get name (Node.children cn)) as [d|] eqn:Hd; [|done].
    destruct (FileSystem.heap (fs w) !! d) eqn:Hdn; [|by destruct (Hkid c cn name d)].
    repeat (case_match; simplify_eq/=); done.
  - intros name. rewrite find_run.
    destruct (FileSystem.cwd (fs w)) as [c|] eqn:Hc; [|done].
    destruct (FileSystem.heap (fs w) !! c) as [cn|] eqn:Hcn; [|by destruct (Hcwd c)].
    done.
Qed.

(* ===================================================================== *)
(** ** The access decision *)
(* ===================================================================== *)

(** The owner tier governs for an owner whose group is also the owning
    group. *)
Lemma owner_before_group this permission u :
  User.id u = Permissions.owningUserId this ->
  Permissions.userHasPermission this permission (Some u)
  = bool_decide (permission ∈ Permissions.ownerPerms this).
Proof.
  intros Hid. unfold Permissions.userHasPermission. simpl.
  by rewrite decide_True by congruence.
Qed.

(** C1. [userHasPermission] decides as the design document says, for every
    permission record, permission and identity, present or absent: the owner
    tier when the identity's id is the owning user's (whatever its group),
    else the group tier when its group is the owning group, else the
    everyone tier, which is also the tier of an absent identity. *)
Theorem userHasPermission_tier_order this permission user :
  Permissions.userHasPermission this permission user
  = hasPermission_spec this permission user.
Proof.
  unfold Permissions.userHasPermission, hasPermission_spec.
  destruct user as [u|]; simpl.
  - destruct (decide (User.id u = _)) as [Hid|Hid].
    + by rewrite decide_True by congruence.
    + rewrite decide_False by congruence.
      by destruct (decide (User.groupId u = _)).
  - done.
Qed.

(* ===================================================================== *)
(** ** Changing directory *)
(* ===================================================================== *)

(** With the current directory at a node without parent, as the root is,
    [changeDirectory("..")] returns and leaves [null] in [cwd]. *)
Lemma changeDirectory_dotdot_no_parent w c n :
  FileSystem.cwd (fs w) = Some c ->
  FileSystem.heap (fs w) !! c = Some n ->
  Node.parent n = None ->
  changeDirectory ".." w = (Return tt, set_fs (FileSystem.set_cwd None) w).
Proof.
  intros Hc Hn Hp. rewrite changeDirectory_run. unfold resolve.
  rewrite Hc, Hn. simpl. by rewrite Hp.
Qed.

(** C2. In a new file system, where the current directory is the root,
    [changeDirectory("..")] does not throw: it returns, and the current
    directory is [null] afterwards. *)
Theorem changeDirectory_dotdot_at_root :
  changeDirectory ".." new_World
  = (Return tt, set_fs (FileSystem.set_cwd None) new_World).
Proof. by eapply changeDirectory_dotdot_no_parent. Qed.

(** Once the current directory is [null], the operations that read it crash. *)
Lemma null_cwd_crashes w :
  FileSystem.cwd (fs w) = None ->
  listDirectory w = (Throw TypeError, w)
  /\ (forall name, makeDirectory name w = (Throw TypeError, w))
  /\ (forall name, createFile name w = (Throw TypeError, w))
  /\ changeDirectory ".." w = (Throw TypeError, w).
Proof.
  intros Hc. rewrite listDirectory_run, changeDirectory_run.
  unfold resolve. setoid_rewrite makeDirectory_run. setoid_rewrite createFile_run.
  unfold create_outcome. by rewrite Hc.
Qed.

(** [changeDirectory] enters any child, whatever its type. *)
Lemma changeDirectory_child name w l :
  name <> "/" -> name <> ".." ->
  child name w = Some l ->
  changeDirectory name w = (Return tt, set_fs (FileSystem.set_cwd (Some l)) w).
Proof.
  intros H1 H2. unfold child, cwdNode. rewrite changeDirectory_run. unfold resolve.
  rewrite decide_False by done.
  destruct (FileSystem.cwd (fs w)) as [c|]; simpl; [|done].
  destruct (FileSystem.heap (fs w) !! c) as [n|]; simpl; [|done].
  rewrite decide_False by done. by intros ->.
Qed.

(** C3. After [createFile("f")] in a new file system, [changeDirectory("f")]
    returns, and the current directory is then a file. *)
Theorem changeDirectory_enters_file :
  (execs [CreateFile "f"; ChangeDirectory "f"] new_World).1 = Return tt
  /\ Node.nodeType <$> cwdNode (execs [CreateFile "f"; ChangeDirectory "f"] new_World).2
     = Some File.
Proof. split; vm_compute; reflexivity. Qed.

(** C10. [changeDirectory] checks no permission.  It never throws
    "Permission denied"; it returns whenever [getNodeByName] does, with the
    node found as current directory; and from one tree, under any two states
    of the user manager (any two current users, or none), it has the same
    outcome and leaves the same tree. *)
Theorem changeDirectory_ignores_identity :
  (forall dir w, (changeDirectory dir w).1 <> Throw PermissionDenied)
  /\ (forall dir w,
        changeDirectory dir w =
          match getNodeByName dir w with
          | (Return n, _) => (Return tt, set_fs (FileSystem.set_cwd n) w)
          | (Throw e, _) => (Throw e, w)
          end)
  /\ (forall dir u1 u2 f,
        (changeDirectory dir (mkWorld u1 f)).1 = (changeDirectory dir (mkWorld u2 f)).1
        /\ fs (changeDirectory dir (mkWorld u1 f)).2
           = fs (changeDirectory dir (mkWorld u2 f)).2
        /\ um (changeDirectory dir (mkWorld u1 f)).2 = u1).
Proof.
  split; [|split].
  - intros dir w. rewrite changeDirectory_run. unfold resolve.
    repeat case_match; simpl; congruence.
  - intros dir w. by rewrite changeDirectory_run, getNodeByName_run.
  - intros dir u1 u2 f. rewrite !changeDirectory_run. simpl.
    by destruct (resolve dir f).
Qed.

(* ===================================================================== *)
(** ** Failure leaves the state alone *)
(* ===================================================================== *)

Lemma create_outcome_atomic nodeType err name w e w' :
  create_outcome nodeType err name w = (Throw e, w') -> w' = w.
Proof. unfold create_outcome. repeat case_match; intros [= <- <-]; done. Qed.

(** C5. Each of [changeDirectory], [makeDirectory], [createFile],
    [removeDirectory], [writeFile], [readFile] and [moveFile] leaves the
    whole state (the tree with its root, current directory and nodes, and
    the user manager) as it was when it throws, whatever it throws. *)
Theorem failed_operation_changes_nothing :
  (forall dir, atomic (changeDirectory dir))
  /\ (forall name, atomic (makeDirectory name))
  /\ (forall name, atomic (createFile name))
  /\ (forall name, atomic (removeDirectory name))
  /\ (forall name content, atomic (writeFile name content))
  /\ (forall name, atomic (readFile name))
  /\ (forall oldName newName, atomic (moveFile oldName newName)).
Proof.
  repeat split.
  - intros dir w e w'. rewrite changeDirectory_run.
    case_match; intros [= <- <-]; done.
  - intros name w e w'. rewrite makeDirectory_run. apply create_outcome_atomic.
  - intros name w e w'. rewrite createFile_run. apply create_outcome_atomic.
  - intros name w e w'. rewrite removeDirectory_run.
    repeat case_match; intros [= <- <-]; done.
  - intros name content w e w'. rewrite writeFile_run.
    repeat case_match; intros [= <- <-]; done.
  - intros name w e w'. rewrite readFile_run.
    repeat case_match; intros [= <- <-]; done.
  - intros oldName newName w e w'. rewrite moveFile_run.
    repeat case_match; intros [= <- <-]; done.
Qed.

(** A second [createFile("a")] in a new file system throws and changes
    nothing. *)
Lemma failed_operation_changes_nothing_witness :
  createFile "a" (createFile "a" new_World).2
  = (Throw FileAlreadyExists, (createFile "a" (createFile "a" new_World).2).2)
  /\ (createFile "a" (createFile "a" new_World).2).2 = (createFile "a" new_World).2.
Proof.
  split.
  - vm_compute. reflexivity.
  - apply (proj1 (proj2 (proj2 failed_operation_changes_nothing))
             "a" (createFile "a" new_World).2 FileAlreadyExists).
    vm_compute. reflexivity.
Defined.

(* ===================================================================== *)
(** ** Users issued by the user manager *)
(* ===================================================================== *)

Section values_lemmas.
Context {V : Type} (P : V -> Prop).
Implicit Types (m : JSMap.t V).

Lemma Forall_values_set k v m :
  P v -> Forall P (JSMap.values m) -> Forall P (JSMap.values (JSMap.set k v m)).
Proof.
  intros Hv. unfold JSMap.values. induction m as [|[k' v'] m IH]; simpl.
  - by repeat constructor.
  - intros [Hv' Hm]%Forall_cons. destruct (decide (k' = k)); simpl.
    + by constructor.
    + constructor; auto.
Qed.

Lemma Forall_values_delete k m :
  Forall P (JSMap.values m) -> Forall P (JSMap.values (JSMap.delete k m)).
Proof.
  unfold JSMap.values. induction m as [|[k' v'] m IH]; simpl; [done|].
  intros [Hv' Hm]%Forall_cons. destruct (decide (k' = k)); simpl; auto.
Qed.

Lemma Forall_values_get k m v :
  Forall P (JSMap.values m) -> JSMap.get k m = Some v -> P v.
Proof.
  unfold JSMap.values. induction m as [|[k' v'] m IH]; simpl; [done|].
  intros [Hv' Hm]%Forall_cons. destruct (decide (k' = k)); [by intros [= <-] | auto].
Qed.
End values_lemmas.

Lemma reachable_has_group s : UserManager.reachable s -> UserManager.has_group_inv s.
Proof.
  induction 1 as [|c s Hs [IHu IHc]].
  - split; [constructor | discriminate].
  - destruct c as [uuid name groupId|userId|userId|name]; simpl.
    + split; [|done]. by apply Forall_values_set.
    + unfold UserManager.deleteUser, bind, gets.
      destruct (JSMap.has userId (UserManager.users s)); simpl; [|done].
      split; [|done]. by apply Forall_values_delete.
    + split; [done|]. simpl. intros u Hu.
      by eapply (Forall_values_get (fun u => is_Some (User.groupId u))).
    + unfold UserManager.setCurrentUserByName, UserManager.findUserByName, bind, gets, ret.
      destruct (List.find _ _) as [u|] eqn:Hf; simpl; [|done].
      split; [done|]. intros ? [= <-]. apply find_some in Hf as [Hin _].
      apply list_elem_of_In in Hin. by eapply (proj1 (Forall_forall _ _) IHu).
Qed.

(** A user made by [createUser] without a group is in the group named by
    its own id. *)
Lemma createUser_groupId uuid name groupId s :
  (UserManager.createUser uuid name groupId s).1
  = Return (User.mk uuid name (Some (default uuid groupId))).
Proof. reflexivity. Qed.

(* ===================================================================== *)
(** ** Creation *)
(* ===================================================================== *)

Lemma create_Return nodeType err name w w' :
  create_outcome nodeType err name w = (Return tt, w') ->
  exists c cn,
    FileSystem.cwd (fs w) = Some c
    /\ FileSystem.heap (fs w) !! c = Some cn
    /\ Permissions.userHasPermission (Node.permissions cn) WRITE
         (UserManager.currentUser (um w)) = true
    /\ JSMap.get name (Node.children cn) = None
    /\ w' = set_fs (FileSystem.set_heap
                      (heap_created nodeType name (UserManager.currentUser (um w)) c cn)) w.
Proof.
  unfold create_outcome.
  destruct (FileSystem.cwd (fs w)) as [c|]; [|done].
  destruct (FileSystem.heap (fs w) !! c) as [cn|] eqn:Hc; [|done].
  destruct (Permissions.userHasPermission _ _ _) eqn:Hp; [|done].
  destruct (JSMap.has name _) eqn:Hhas; [done|].
  intros [= <-]. apply has_false in Hhas. by exists c, cn.
Qed.

Lemma heap_created_cwd nodeType name user c cn h :
  heap_created nodeType name user c cn h !! c
  = Some (Node.set_children (JSMap.set name (fresh (dom h))) cn).
Proof. unfold heap_created. by rewrite lookup_insert_eq. Qed.

Lemma heap_created_new nodeType name user c cn h :
  h !! c = Some cn ->
  heap_created nodeType name user c cn h !! fresh (dom h)
  = Some (Node.set_parent (Some c) (Node.new name nodeType (defaultPermissionsOf user))).
Proof.
  intros Hc. unfold heap_created.
  rewrite lookup_insert_ne, lookup_insert_eq; [done|].
  intros ->. by rewrite fresh_lookup in Hc.
Qed.

(** Without a current user, the node made belongs to the user and the
    group with the empty name. *)
Lemma created_node_permissions_anonymous name w w' :
  UserManager.currentUser (um w) = None ->
  makeDirectory name w = (Return tt, w') \/ createFile name w = (Return tt, w') ->
  exists l n,
    child name w' = Some l
    /\ FileSystem.heap (fs w') !! l = Some n
    /\ Node.permissions n = Permissions.mk EmptyString EmptyString rwx rwx ∅.
Proof.
  intros Hu Hcall. rewrite makeDirectory_run, createFile_run in Hcall.
  assert (exists nodeType err, create_outcome nodeType err name w = (Return tt, w'))
    as (nodeType & err & Hrun) by (destruct Hcall; eauto).
  apply create_Return in Hrun as (c & cn & Hc & Hcn & _ & _ & ->).
  destruct w as [s [h r cw]]; simpl in *. subst cw. rewrite Hu.
  eexists _, _. split; [|split].
  - unfold child, cwdNode. simpl. rewrite heap_created_cwd. simpl. apply get_set_eq.
  - by apply heap_created_new.
  - done.
Qed.




(** C9 (amended). A second [createFile] or [makeDirectory] with a name that
    a first one has just created throws "already exists"; and whenever the
    current identity may write the current directory and the name is among
    its children, whatever the child's type, [createFile] throws "File
    already exists" and [makeDirectory] throws "Directory already exists",
    both of kind AlreadyExists. *)
Theorem create_existing_name :
  (forall name w w1,
     makeDirectory name w = (Return tt, w1) \/ createFile name w = (Return tt, w1) ->
     createFile name w1 = (Throw FileAlreadyExists, w1)
     /\ makeDirectory name w1 = (Throw DirectoryAlreadyExists, w1))
  /\ (forall name w l,
        mayWriteCwd w = true ->
        child name w = Some l ->
        createFile name w = (Throw FileAlreadyExists, w)
        /\ makeDirectory name w = (Throw DirectoryAlreadyExists, w))
  /\ kind FileAlreadyExists = [AlreadyExists]
  /\ kind DirectoryAlreadyExists = [AlreadyExists].
Proof.
  assert (forall name w l err nodeType,
            mayWriteCwd w = true -> child name w = Some l ->
            create_outcome nodeType err name w = (Throw err, w)) as Hgen.
  { intros name w l err nodeType Hw Hl. unfold create_outcome.
    unfold mayWriteCwd, child, cwdNode in *.
    destruct (FileSystem.cwd (fs w)) as [c|]; simpl in *; [|done].
    destruct (FileSystem.heap (fs w) !! c) as [cn|]; simpl in *; [|done].
    rewrite Hw. unfold JSMap.has. by rewrite Hl. }
  split; [|split; [|done]].
  - intros name w w1 Hcall. rewrite makeDirectory_run, createFile_run in Hcall.
    rewrite makeDirectory_run, createFile_run.
    assert (exists nodeType err, create_outcome nodeType err name w = (Return tt, w1))
      as (nodeType & err & Hrun) by (destruct Hcall; eauto).
    apply create_Return in Hrun as (c & cn & Hc & Hcn & Hp & _ & ->).
    assert (mayWriteCwd
              (set_fs (FileSystem.set_heap
                         (heap_created nodeType name (UserManager.currentUser (um w)) c cn))
                 w) = true) as Hw.
    { unfold mayWriteCwd, cwdNode. simpl. rewrite Hc. simpl.
      by rewrite heap_created_cwd. }
    assert (child name
              (set_fs (FileSystem.set_heap
                         (heap_created nodeType name (UserManager.currentUser (um w)) c cn))
                 w) = Some (fresh (dom (FileSystem.heap (fs w))))) as Hl.
    { unfold child, cwdNode. simpl. rewrite Hc. simpl.
      rewrite heap_created_cwd. simpl. apply get_set_eq. }
    split; by eapply Hgen.
  - intros name w l Hw Hl. rewrite makeDirectory_run, createFile_run.
    split; by eapply Hgen.
Qed.

(* ===================================================================== *)
(** ** Writing, reading, moving, finding, removing *)
(* ===================================================================== *)

(** C6. Whenever [createFile(name)], then [writeFile(name, content)], then
    [readFile(name)] all return, the string read is [content]. *)
Theorem create_write_read name content w w1 w2 w3 r :
  createFile name w = (Return tt, w1) ->
  writeFile name content w1 = (Return tt, w2) ->
  readFile name w2 = (Return r, w3) ->
  r = content.
Proof.
  intros _. rewrite writeFile_run, readFile_run. unfold Node.isFile.
  destruct w1 as [s [h root [c|]]]; simpl; [|done].
  destruct (h !! c) as [cn|] eqn:Hc; [|done].
  destruct (JSMap.get name (Node.children cn)) as [l|] eqn:Hl; [|done].
  destruct (h !! l) as [f|] eqn:Hf; [|done].
  destruct (Permissions.userHasPermission _ _ _); [|done].
  destruct (bool_decide (Node.nodeType f = File)) eqn:Hfile; [|done].
  intros [= <-]. simpl.
  assert (exists cn', <[l := Node.set_content content f]> h !! c = Some cn'
                      /\ Node.children cn' = Node.children cn) as (cn' & -> & ->).
  { destruct (decide (l = c)) as [->|Hne].
    - rewrite lookup_insert_eq. eexists; split; [done|]. simpl. congruence.
    - rewrite lookup_insert_ne by done. eauto. }
  rewrite Hl, lookup_insert_eq. simpl. rewrite Hfile.
  destruct (Permissions.userHasPermission _ _ _); [|done].
  by intros [= <-].
Qed.

(** The round trip of the test suite. *)
Lemma create_write_read_witness :
  let w0 := (execs [AsUser (UserManager.CreateUser "id-1" "test" (Some "test"));
                    AsUser (UserManager.SetCurrentUserById "id-1")] new_World).2 in
  let w1 := (createFile "notes.txt" w0).2 in
  let w2 := (writeFile "notes.txt" "Hello, world!" w1).2 in
  (readFile "notes.txt" w2).1 = Return "Hello, world!".
Proof.
  intros w0 w1 w2.
  assert (exists r, readFile "notes.txt" w2 = (Return r, w2)) as [r Hr].
  { eexists. vm_compute. reflexivity. }
  rewrite Hr. simpl. f_equal.
  apply (create_write_read "notes.txt" "Hello, world!" w0 w1 w2 w2 r).
  - vm_compute. reflexivity.
  - vm_compute. reflexivity.
  - exact Hr.
Defined.

(** C8. After a [moveFile(a, b)] that returns, [find(b)] returns one node,
    whose name is [b], and [find(a)] returns the empty array.  In general
    [find(name)] returns the array of the one child of the current directory
    under that name when there is one, and the empty array when the current
    directory has none. *)
Theorem moveFile_then_find :
  (forall a b w w',
     moveFile a b w = (Return tt, w') ->
     exists l n,
       find b w' = (Return [l], w')
       /\ FileSystem.heap (fs w') !! l = Some n
       /\ Node.name n = b
       /\ find a w' = (Return [], w'))
  /\ (forall name w l, child name w = Some l -> find name w = (Return [l], w))
  /\ (forall name w n,
        cwdNode w = Some n -> JSMap.get name (Node.children n) = None ->
        find name w = (Return [], w)).
Proof.
  split; [|split].
  - intros a b w w'. rewrite moveFile_run.
    destruct w as [s [h root [c|]]]; simpl; [|done].
    destruct (h !! c) as [cn|] eqn:Hc; [|done].
    destruct (Permissions.userHasPermission _ _ _); [|done].
    destruct (JSMap.get a (Node.children cn)) as [l|] eqn:Hl; [|done].
    destruct (h !! l) as [f|] eqn:Hf; [|done].
    destruct (Permissions.userHasPermission _ _ _); [|done].
    destruct (JSMap.has b (Node.children cn)) eqn:Hb; [done|].
    apply has_false in Hb. intros [= <-].
    assert (a <> b) as Hab by (intros ->; congruence).
    rewrite !find_run. simpl. unfold heap_moved.
    destruct (decide (c = l)) as [->|Hne].
    + assert (f = cn) as -> by congruence.
      rewrite !lookup_alter_eq, Hc. simpl.
      rewrite get_set_eq, get_set_ne, get_delete_eq by done.
      eexists l, _. split; [done|]. split; [by rewrite !lookup_alter_eq, Hc|]. by split.
    + rewrite lookup_alter_eq, lookup_alter_ne, lookup_alter_eq, Hc by done. simpl.
      rewrite get_set_eq, get_set_ne, get_delete_eq by done.
      eexists l, _. split; [done|]. split.
      { by rewrite lookup_alter_ne, lookup_alter_eq, lookup_alter_ne, Hf by done. }
      by split.
  - intros name w l. unfold child, cwdNode. rewrite find_run.
    destruct (FileSystem.cwd (fs w)) as [c|]; simpl; [|done].
    destruct (FileSystem.heap (fs w) !! c) as [cn|]; simpl; [|done].
    by intros ->.
  - intros name w n. unfold cwdNode. rewrite find_run.
    destruct (FileSystem.cwd (fs w)) as [c|]; simpl; [|done].
    intros -> ->. done.
Qed.

(** Moving "notes.txt" to "notes2.txt" as its owner. *)
Lemma moveFile_then_find_witness :
  let w := (execs (two_users ++ [CreateFile "notes.txt"]) new_World).2 in
  exists l n,
    find "notes2.txt" (moveFile "notes.txt" "notes2.txt" w).2
    = (Return [l], (moveFile "notes.txt" "notes2.txt" w).2)
    /\ FileSystem.heap (fs (moveFile "notes.txt" "notes2.txt" w).2) !! l = Some n
    /\ Node.name n = "notes2.txt"
    /\ find "notes.txt" (moveFile "notes.txt" "notes2.txt" w).2
       = (Return [], (moveFile "notes.txt" "notes2.txt" w).2).
Proof.
  intros w. apply (proj1 moveFile_then_find "notes.txt" "notes2.txt" w).
  vm_compute. reflexivity.
Defined.

(** C7 (amended). When the current identity may write the current
    directory and the name is that of a child directory, [removeDirectory]
    returns whatever the directory contains; the name is then no child of the
    current directory and no [listDirectory] there returns it.  And
    [removeDirectory] returns only when the name is that of a child
    directory. *)
Theorem removeDirectory_no_emptiness_check :
  (forall name w d dn,
     mayWriteCwd w = true ->
     child name w = Some d ->
     FileSystem.heap (fs w) !! d = Some dn ->
     Node.nodeType dn = Directory ->
     exists w',
       removeDirectory name w = (Return tt, w')
       /\ child name w' = None
       /\ (forall names w'', listDirectory w' = (Return names, w'') -> name ∉ names)
       /\ (mayReadCwd w = true ->
           exists names, listDirectory w' = (Return names, w') /\ name ∉ names))
  /\ (forall name w w',
        removeDirectory name w = (Return tt, w') ->
        exists d dn,
          child name w = Some d
          /\ FileSystem.heap (fs w) !! d = Some dn
          /\ Node.nodeType dn = Directory).
Proof.
  split.
  - intros name [s [h root cw]] d dn. unfold mayWriteCwd, mayReadCwd, child, cwdNode.
    rewrite removeDirectory_run. simpl.
    destruct cw as [c|]; simpl; [|done].
    destruct (h !! c) as [cn|] eqn:Hc; simpl; [|done].
    intros -> -> -> Hdir. unfold Node.isDirectory. rewrite bool_decide_eq_true_2 by done.
    eexists. split; [done|]. rewrite listDirectory_run. simpl.
    rewrite lookup_insert_eq. simpl. split; [apply get_delete_eq|]. split.
    + intros names w''. destruct (Permissions.userHasPermission _ _ _); [|done].
      intros [= <- _]. apply keys_delete.
    + intros ->. eexists. split; [done|]. apply keys_delete.
  - intros name w w'. unfold child, cwdNode. rewrite removeDirectory_run.
    destruct (FileSystem.cwd (fs w)) as [c|]; simpl; [|done].
    destruct (FileSystem.heap (fs w) !! c) as [cn|]; simpl; [|done].
    destruct (Permissions.userHasPermission _ _ _); [|done].
    destruct (JSMap.get name (Node.children cn)) as [d|]; [|done].
    destruct (FileSystem.heap (fs w) !! d) as [dn|] eqn:Hd; [|done].
    unfold Node.isDirectory. case_bool_decide; [|done]. intros _. by exists d, dn.
Qed.

(** The owner removes "science", which holds "notes.txt". *)
Lemma removeDirectory_no_emptiness_check_witness :
  let w := (execs (two_users ++ science_with_notes) new_World).2 in
  (JSMap.keys ∘ Node.children <$> childNode "science" w) = Some ["notes.txt"]
  /\ exists w',
       removeDirectory "science" w = (Return tt, w')
       /\ child "science" w' = None
       /\ (forall names w'', listDirectory w' = (Return names, w'') -> "science" ∉ names)
       /\ (mayReadCwd w = true ->
           exists names, listDirectory w' = (Return names, w') /\ "science" ∉ names).
Proof.
  intros w. split; [vm_compute; reflexivity|].
  eapply (proj1 removeDirectory_no_emptiness_check "science" w).
  - vm_compute. reflexivity.
  - vm_compute. reflexivity.
  - vm_compute. reflexivity.
  - vm_compute. reflexivity.
Defined.

(** C7, as first stated, fails: "science" is a child directory with a file
    in it, and [removeDirectory("science")] throws "Permission denied",
    because the current user, "test2", may not write the current directory,
    which "test" made. *)
Lemma removeDirectory_denied_counterexample :
  let calls := (two_users ++ science_with_notes
                ++ [AsUser (UserManager.SetCurrentUserByName "test2")])%list in
  let w := (execs calls new_World).2 in
  (execs calls new_World).1 = Return tt
  /\ Node.nodeType <$> childNode "science" w = Some Directory
  /\ (JSMap.keys ∘ Node.children <$> childNode "science" w) = Some ["notes.txt"]
  /\ removeDirectory "science" w = (Throw PermissionDenied, w).
Proof. intros calls w. split_and!; vm_compute; reflexivity. Qed.

(** Creating "notes.txt" twice. *)
Lemma create_existing_name_witness :
  let w := (execs two_users new_World).2 in
  createFile "notes.txt" (createFile "notes.txt" w).2
  = (Throw FileAlreadyExists, (createFile "notes.txt" w).2)
  /\ makeDirectory "notes.txt" (createFile "notes.txt" w).2
     = (Throw DirectoryAlreadyExists, (createFile "notes.txt" w).2).
Proof.
  intros w. apply (proj1 create_existing_name "notes.txt" w).
  right. vm_compute. reflexivity.
Defined.

(** C9, as first stated, fails: "notes.txt" is among the children of the
    current directory, and both [createFile("notes.txt")] and
    [makeDirectory("notes.txt")] throw "Permission denied", not "already
    exists", because the current user, "test2", may not write the current
    directory, which "test" made. *)
Lemma existing_name_denied_counterexample :
  let calls := (two_users ++ [MakeDirectory "school"; ChangeDirectory "school";
                             CreateFile "notes.txt";
                             AsUser (UserManager.SetCurrentUserByName "test2")])%list in
  let w := (execs calls new_World).2 in
  (execs calls new_World).1 = Return tt
  /\ Node.nodeType <$> childNode "notes.txt" w = Some File
  /\ createFile "notes.txt" w = (Throw PermissionDenied, w)
  /\ makeDirectory "notes.txt" w = (Throw PermissionDenied, w)
  /\ kind PermissionDenied = [Denied].
Proof. intros calls w. split_and!; vm_compute; reflexivity. Qed.

(** Entering "school" as its owner and with no current user. *)
Lemma changeDirectory_ignores_identity_witness :
  let w := (execs (two_users ++ [MakeDirectory "school"]) new_World).2 in
  (changeDirectory "school" w).1 <> Throw PermissionDenied
  /\ (changeDirectory "school" w).1
     = (changeDirectory "school" (mkWorld UserManager.new (fs w))).1
  /\ fs (changeDirectory "school" w).2
     = fs (changeDirectory "school" (mkWorld UserManager.new (fs w))).2.
Proof.
  intros w. split.
  - apply (proj1 changeDirectory_ignores_identity).
  - destruct (proj2 (proj2 changeDirectory_ignores_identity) "school" (um w)
                UserManager.new (fs w)) as (H1 & H2 & _).
    destruct w as [s f]. simpl in *. by split.
Defined.

(* ===================================================================== *)
(** ** The user manager *)
(* ===================================================================== *)

Section JSMap_more.
Context {V : Type}.
Implicit Types (m : JSMap.t V) (k : string) (v : V).

Lemma get_set_inv k k' v m v' :
  JSMap.get k' (JSMap.set k v m) = Some v' ->
  (k' = k /\ v' = v) \/ (k' <> k /\ JSMap.get k' m = Some v').
Proof.
  destruct (decide (k = k')) as [->|Hne].
  - rewrite get_set_eq. intros [= ->]. by left.
  - rewrite get_set_ne by done. right. split; [congruence|done].
Qed.

Lemma keys_delete_filter k m :
  JSMap.keys (JSMap.delete k m) = filter (fun k' => k' <> k) (JSMap.keys m).
Proof.
  unfold JSMap.keys. induction m as [|[k' v'] m IH]; simpl; [done|].
  destruct (decide (k' = k)) as [->|Hne]; simpl.
  - rewrite filter_cons_False by (simpl; tauto). apply IH.
  - rewrite filter_cons_True by done. f_equal. apply IH.
Qed.

Lemma keys_delete_NoDup k m :
  NoDup (JSMap.keys m) -> NoDup (JSMap.keys (JSMap.delete k m)).
Proof. rewrite keys_delete_filter. apply NoDup_filter. Qed.

Lemma get_values k m v : JSMap.get k m = Some v -> v ∈ JSMap.values m.
Proof.
  unfold JSMap.values. induction m as [|[k' v'] m IH]; simpl; [done|].
  destruct (decide (k' = k)).
  - intros [= ->]. apply list_elem_of_here.
  - intros H. apply list_elem_of_further. by apply IH.
Qed.
End JSMap_more.

Lemma find_first {A} (f : A -> bool) (l : list A) x :
  List.find f l = Some x ->
  exists before after,
    l = (before ++ x :: after)%list /\ f x = true /\ Forall (fun y => f y = false) before.
Proof.
  induction l as [|y l IH]; simpl; [done|].
  destruct (f y) eqn:Hy.
  - intros [= ->]. exists [], l. by repeat split.
  - intros (before & after & -> & Hx & Hb)%IH.
    exists (y :: before), after. repeat split; [done|]. by constructor.
Qed.

Lemma find_no {A} (f : A -> bool) (l : list A) :
  List.find f l = None -> Forall (fun y => f y = false) l.
Proof.
  induction l as [|y l IH]; simpl; [constructor|].
  destruct (f y) eqn:Hy; [done|]. intros H. constructor; auto.
Qed.

(** X1. A user created is found under its id, with its own id as group
    when none was given, whoever had that id before; the other ids and the
    current user are as they were. *)
Theorem createUser_then_findUserById uuid name groupId s :
  (UserManager.createUser uuid name groupId s).1
  = Return (User.mk uuid name (Some (default uuid groupId)))
  /\ (UserManager.findUserById uuid (UserManager.createUser uuid name groupId s).2).1
     = Return (Some (User.mk uuid name (Some (default uuid groupId))))
  /\ (forall userId, userId <> uuid ->
        (UserManager.findUserById userId (UserManager.createUser uuid name groupId s).2).1
        = (UserManager.findUserById userId s).1)
  /\ UserManager.currentUser (UserManager.createUser uuid name groupId s).2
     = UserManager.currentUser s.
Proof.
  split; [done|]. split; [|split; [|done]].
  - unfold UserManager.findUserById, UserManager.createUser, bind, gets, modify, ret.
    simpl. by rewrite get_set_eq.
  - intros userId Hne.
    unfold UserManager.findUserById, UserManager.createUser, bind, gets, modify, ret.
    simpl. by rewrite get_set_ne.
Qed.

Lemma createUser_then_findUserById_witness :
  (UserManager.findUserById "id-1"
     (UserManager.createUser "id-2" "Bob" None
        (UserManager.createUser "id-1" "Alice" (Some "group1") UserManager.new).2).2).1
  = Return (Some (User.mk "id-1" "Alice" (Some "group1"))).
Proof.
  rewrite (proj1 (proj2 (proj2 (createUser_then_findUserById "id-2" "Bob" None
             (UserManager.createUser "id-1" "Alice" (Some "group1") UserManager.new).2)))
             "id-1") by done.
  apply (createUser_then_findUserById "id-1" "Alice" (Some "group1") UserManager.new).
Defined.

(** X2. [deleteUser] throws "User not found" and changes nothing for an id
    that is not stored.  For a stored id it returns; the id is then not found,
    the other ids are as before, and the current user stays, also when it is
    the user deleted. *)
Theorem deleteUser_outcome userId s :
  (JSMap.get userId (UserManager.users s) = None ->
   UserManager.deleteUser userId s = (Throw UserNotFound, s))
  /\ (is_Some (JSMap.get userId (UserManager.users s)) ->
      exists s',
        UserManager.deleteUser userId s = (Return tt, s')
        /\ (UserManager.findUserById userId s').1 = Return None
        /\ (forall other, other <> userId ->
              (UserManager.findUserById other s').1 = (UserManager.findUserById other s).1)
        /\ UserManager.currentUser s' = UserManager.currentUser s).
Proof.
  unfold UserManager.deleteUser, UserManager.findUserById, bind, gets, modify, ret.
  unfold JSMap.has. split.
  - by intros ->.
  - intros [u ->]. simpl. eexists. split; [done|]. simpl.
    split; [by rewrite get_delete_eq|]. split; [|done].
    intros other Hne. by rewrite get_delete_ne.
Qed.

Lemma deleteUser_outcome_witness :
  let s := (UserManager.exec (UserManager.SetCurrentUserById "id-1")
              (UserManager.createUser "id-1" "Alice" None UserManager.new).2).2 in
  UserManager.deleteUser "nobody" s = (Throw UserNotFound, s)
  /\ exists s',
       UserManager.deleteUser "id-1" s = (Return tt, s')
       /\ (UserManager.findUserById "id-1" s').1 = Return None
       /\ (forall other, other <> "id-1" ->
             (UserManager.findUserById other s').1 = (UserManager.findUserById other s).1)
       /\ UserManager.currentUser s' = UserManager.currentUser s.
Proof.
  intros s. split.
  - apply (proj1 (deleteUser_outcome "nobody" s)). vm_compute. reflexivity.
  - apply (proj2 (deleteUser_outcome "id-1" s)). vm_compute. by eexists.
Defined.

(** X3. With an id that is not stored, [setCurrentUserById] returns and
    leaves no current user; with a name that no stored user has,
    [setCurrentUserByName] throws "User not found" and keeps the current user. *)
Theorem setCurrentUser_unknown :
  (forall userId s,
     JSMap.get userId (UserManager.users s) = None ->
     UserManager.setCurrentUserById userId s
     = (Return tt, UserManager.set_currentUser None s))
  /\ (forall name s,
        (forall u, u ∈ JSMap.values (UserManager.users s) -> User.name u <> name) ->
        UserManager.setCurrentUserByName name s = (Throw UserNotFound, s)).
Proof.
  split.
  - intros userId s Hnone.
    unfold UserManager.setCurrentUserById, UserManager.findUserById, bind, gets, modify, ret.
    by rewrite Hnone.
  - intros name s Hno.
    unfold UserManager.setCurrentUserByName, UserManager.findUserByName, bind, gets, ret.
    destruct (List.find _ _) as [u|] eqn:Hf; [|done].
    apply find_some in Hf as [Hin Hname%bool_decide_eq_true].
    apply list_elem_of_In in Hin. by destruct (Hno u Hin).
Qed.

Lemma setCurrentUser_unknown_witness :
  let s := (UserManager.exec (UserManager.SetCurrentUserById "id-1")
              (UserManager.createUser "id-1" "Alice" None UserManager.new).2).2 in
  UserManager.currentUser s = Some (User.mk "id-1" "Alice" (Some "id-1"))
  /\ UserManager.setCurrentUserById "id-9" s = (Return tt, UserManager.set_currentUser None s)
  /\ UserManager.setCurrentUserByName "Bob" s = (Throw UserNotFound, s).
Proof.
  intros s. split; [done|]. split.
  - apply (proj1 setCurrentUser_unknown "id-9" s). vm_compute. reflexivity.
  - apply (proj2 setCurrentUser_unknown "Bob" s).
    intros u. vm_compute. intros Hin.
    apply list_elem_of_singleton in Hin. subst u. discriminate.
Defined.

(** X4. [findUserByName] never throws and never changes the state.  The
    user it returns has the name asked for and is the first such user in the
    order of creation; it returns [undefined] exactly when no stored user has
    the name. *)
Theorem findUserByName_first name s :
  match UserManager.findUserByName name s with
  | (Return (Some u), s') =>
      s' = s /\ User.name u = name
      /\ exists before after,
           JSMap.values (UserManager.users s) = (before ++ u :: after)%list
           /\ Forall (fun v => User.name v <> name) before
  | (Return None, s') =>
      s' = s /\ Forall (fun v => User.name v <> name) (JSMap.values (UserManager.users s))
  | (Throw _, _) => False
  end.
Proof.
  unfold UserManager.findUserByName, bind, gets, ret.
  destruct (List.find _ _) as [u|] eqn:Hf.
  - apply find_first in Hf as (before & after & Hv & Hname%bool_decide_eq_true & Hb).
    split; [done|]. split; [done|]. exists before, after. split; [done|].
    eapply Forall_impl; [exact Hb|]. simpl. by intros v ?%bool_decide_eq_false.
  - split; [done|]. apply find_no in Hf.
    eapply Forall_impl; [exact Hf|]. simpl. by intros v ?%bool_decide_eq_false.
Qed.

(** X5. In every state the user manager can reach, a user found under an
    id has that id and a group, no id is stored twice, and after
    [setCurrentUserById] the current user, if any, has the id asked for. *)
Theorem reachable_users_keyed s :
  UserManager.reachable s ->
  NoDup (JSMap.keys (UserManager.users s))
  /\ (forall userId u,
        (UserManager.findUserById userId s).1 = Return (Some u) ->
        User.id u = userId /\ is_Some (User.groupId u))
  /\ (forall userId u,
        UserManager.currentUser (UserManager.setCurrentUserById userId s).2 = Some u ->
        User.id u = userId).
Proof.
  intros Hreach.
  assert (users_ok s) as [Hnd Hkey].
  { induction Hreach as [|c s Hs [IHnd IHkey]].
    - split; [constructor | done].
    - destruct c as [uuid name groupId|userId|userId|name]; simpl.
      + split; [by apply keys_set_NoDup|]. simpl.
        intros k u [[-> ->]|[_ Hu]]%get_set_inv; [done | by apply IHkey].
      + unfold UserManager.deleteUser, bind, gets.
        destruct (JSMap.has userId (UserManager.users s)); simpl; [|done].
        split; [by apply keys_delete_NoDup|].
        intros k u Hu%get_delete_Some. by apply IHkey.
      + done.
      + unfold UserManager.setCurrentUserByName, UserManager.findUserByName, bind, gets, ret.
        by destruct (List.find _ _). }
  split; [done|]. split.
  - unfold UserManager.findUserById, bind, gets, ret. simpl.
    intros userId u [= Hu]. split; [by apply Hkey|].
    apply reachable_has_group in Hreach as [Hg _].
    by eapply (Forall_values_get (fun u => is_Some (User.groupId u))).
  - unfold UserManager.setCurrentUserById, UserManager.findUserById, bind, gets, ret, modify.
    simpl. intros userId u Hu. by apply Hkey.
Qed.

Lemma reachable_users_keyed_witness :
  let s := (UserManager.exec (UserManager.CreateUser "id-2" "Bob" None)
              (UserManager.exec (UserManager.CreateUser "id-1" "Alice" (Some "g"))
                 UserManager.new).2).2 in
  NoDup (JSMap.keys (UserManager.users s))
  /\ (forall userId u,
        (UserManager.findUserById userId s).1 = Return (Some u) ->
        User.id u = userId /\ is_Some (User.groupId u))
  /\ (forall userId u,
        UserManager.currentUser (UserManager.setCurrentUserById userId s).2 = Some u ->
        User.id u = userId).
Proof.
  intros s. apply (reachable_users_keyed s).
  apply (UserManager.reachable_exec (UserManager.CreateUser "id-2" "Bob" None)).
  apply (UserManager.reachable_exec (UserManager.CreateUser "id-1" "Alice" (Some "g"))).
  apply UserManager.reachable_new.
Defined.

(* ===================================================================== *)
(** ** What a call does to the state *)
(* ===================================================================== *)

Lemma exec_fs_step c w : fs_step w (fs (exec c w).2).
Proof.
  destruct c as [dir|name|name|name|name content|oldName newName|c]; simpl.
  - rewrite changeDirectory_run.
    destruct (resolve dir (fs w)) as [r|e] eqn:Hr; simpl; [|constructor].
    by eapply fs_cd.
  - rewrite makeDirectory_run. unfold create_outcome.
    destruct (FileSystem.cwd (fs w)) as [c|] eqn:Hcwd; [|constructor].
    destruct (FileSystem.heap (fs w) !! c) as [cn|] eqn:Hcn; [|constructor].
    destruct (Permissions.userHasPermission _ _ _); [|constructor].
    destruct (JSMap.has name _) eqn:Hhas; [constructor|]. simpl.
    apply has_false in Hhas. apply (fs_heap w). by constructor.
  - rewrite createFile_run. unfold create_outcome.
    destruct (FileSystem.cwd (fs w)) as [c|] eqn:Hcwd; [|constructor].
    destruct (FileSystem.heap (fs w) !! c) as [cn|] eqn:Hcn; [|constructor].
    destruct (Permissions.userHasPermission _ _ _); [|constructor].
    destruct (JSMap.has name _) eqn:Hhas; [constructor|]. simpl.
    apply has_false in Hhas. apply (fs_heap w). by constructor.
  - rewrite removeDirectory_run.
    destruct (FileSystem.cwd (fs w)) as [c|] eqn:Hcwd; [|constructor].
    destruct (FileSystem.heap (fs w) !! c) as [cn|] eqn:Hcn; [|constructor].
    destruct (Permissions.userHasPermission _ _ _); [|constructor].
    destruct (JSMap.get name (Node.children cn)) as [d|] eqn:Hd; [|constructor].
    destruct (FileSystem.heap (fs w) !! d) as [dn|] eqn:Hdn; [|constructor].
    unfold Node.isDirectory. case_bool_decide; [|constructor]. simpl.
    apply (fs_heap w). by econstructor.
  - rewrite writeFile_run.
    destruct (FileSystem.cwd (fs w)) as [c|] eqn:Hcwd; [|constructor].
    destruct (FileSystem.heap (fs w) !! c) as [cn|] eqn:Hcn; [|constructor].
    destruct (JSMap.get name (Node.children cn)) as [l|] eqn:Hl; [|constructor].
    destruct (FileSystem.heap (fs w) !! l) as [fn|] eqn:Hfn; [|constructor].
    destruct (Permissions.userHasPermission _ _ _); [|constructor].
    unfold Node.isFile. case_bool_decide; [|constructor]. simpl.
    apply (fs_heap w). by econstructor.
  - rewrite moveFile_run.
    destruct (FileSystem.cwd (fs w)) as [c|] eqn:Hcwd; [|constructor].
    destruct (FileSystem.heap (fs w) !! c) as [cn|] eqn:Hcn; [|constructor].
    destruct (Permissions.userHasPermission _ _ _); [|constructor].
    destruct (JSMap.get oldName (Node.children cn)) as [l|] eqn:Hl; [|constructor].
    destruct (FileSystem.heap (fs w) !! l) as [fn|] eqn:Hfn; [|constructor].
    destruct (Permissions.userHasPermission _ _ _); [|constructor].
    destruct (JSMap.has newName _) eqn:Hhas; [constructor|]. simpl.
    apply has_false in Hhas. apply (fs_heap w). by econstructor.
  - unfold onUserManager. destruct (UserManager.exec c (um w)). simpl. apply fs_same.
Qed.

Lemma exec_um c w :
  um (exec c w).2
  = match c with
    | AsUser c' => (UserManager.exec c' (um w)).2
    | _ => um w
    end.
Proof.
  destruct c as [dir|name|name|name|name content|oldName newName|c]; simpl.
  - rewrite changeDirectory_run. by destruct (resolve dir (fs w)).
  - rewrite makeDirectory_run. unfold create_outcome. by repeat case_match.
  - rewrite createFile_run. unfold create_outcome. by repeat case_match.
  - rewrite removeDirectory_run. by repeat case_match.
  - rewrite writeFile_run. by repeat case_match.
  - rewrite moveFile_run. by repeat case_match.
  - unfold onUserManager. by destruct (UserManager.exec c (um w)).
Qed.

Lemma reachable_um w : reachable w -> UserManager.reachable (um w).
Proof.
  induction 1 as [|c w Hw IH]; [constructor|].
  rewrite exec_um. destruct c; try done. by constructor.
Qed.

Lemma heap_created_inserts nodeType name user c cn h :
  heap_created nodeType name user c cn h
  = <[c := Node.set_children (JSMap.set name (fresh (dom h))) cn]>
      (<[fresh (dom h) := Node.set_parent (Some c)
                            (Node.new name nodeType (defaultPermissionsOf user))]> h).
Proof. unfold heap_created. by rewrite insert_insert_eq. Qed.

Lemma alter_lookup_insert (h : gmap loc Node.t) x n f :
  h !! x = Some n -> alter f x h = <[x := f n]> h.
Proof.
  intros Hx. apply map_eq; intros j. rewrite lookup_insert, lookup_alter.
  case_decide; subst; [by rewrite Hx | done].
Qed.

Lemma heap_moved_inserts oldName newName c l h cn fn :
  h !! c = Some cn -> h !! l = Some fn -> c <> l ->
  heap_moved oldName newName c l h
  = <[c := Node.set_children (JSMap.set newName l)
             (Node.set_children (JSMap.delete oldName) cn)]>
      (<[l := Node.set_name newName fn]>
         (<[c := Node.set_children (JSMap.delete oldName) cn]> h)).
Proof.
  intros Hc Hl Hne. unfold heap_moved.
  rewrite (alter_lookup_insert h c cn) by done.
  rewrite (alter_lookup_insert _ l fn) by (by rewrite lookup_insert_ne).
  rewrite (alter_lookup_insert _ c (Node.set_children (JSMap.delete oldName) cn)).
  - done.
  - by rewrite lookup_insert_ne, lookup_insert_eq by done.
Qed.

(** No call frees a node or changes its parent, type or permissions. *)
Lemma heap_step_attributes f user h' l n :
  heap_step f user h' ->
  FileSystem.heap f !! l = Some n ->
  exists n',
    h' !! l = Some n'
    /\ Node.parent n' = Node.parent n
    /\ Node.nodeType n' = Node.nodeType n
    /\ Node.permissions n' = Node.permissions n.
Proof.
  intros Hstep Hl. destruct Hstep as
    [nodeType name c cn Hcwd Hcn Hfree
    |name c cn d dn Hcwd Hcn Hd Hdn Hdir
    |name content c cn x fn Hcwd Hcn Hx Hfn Hfile
    |oldName newName c cn x fn Hcwd Hcn Hx Hfn Hfree].
  - rewrite heap_created_inserts.
    assert (fresh (dom (FileSystem.heap f)) <> l) as Hfresh.
    { intros <-. by rewrite fresh_lookup in Hl. }
    destruct (decide (c = l)) as [->|Hne].
    + rewrite lookup_insert_eq. eexists. split; [done|]. by simplify_eq.
    + rewrite !lookup_insert_ne by done. eauto.
  - destruct (decide (c = l)) as [->|Hne].
    + rewrite lookup_insert_eq. eexists. split; [done|]. by simplify_eq.
    + rewrite lookup_insert_ne by done. eauto.
  - destruct (decide (x = l)) as [->|Hne].
    + rewrite lookup_insert_eq. eexists. split; [done|]. by simplify_eq.
    + rewrite lookup_insert_ne by done. eauto.
  - unfold heap_moved.
    destruct (decide (c = l)) as [->|Hcl]; destruct (decide (x = l)) as [->|Hxl];
      rewrite ?lookup_alter_eq, ?lookup_alter_ne, ?lookup_alter_eq,
        ?lookup_alter_ne, ?lookup_alter_eq by done;
      rewrite Hl; simpl; eexists; (split; [done|]); done.
Qed.

Lemma heap_step_new f user h' l :
  heap_step f user h' ->
  is_Some (h' !! l) ->
  is_Some (FileSystem.heap f !! l)
  \/ exists c n',
       is_Some (FileSystem.heap f !! c) /\ h' !! l = Some n'
       /\ Node.parent n' = Some c /\ Node.children n' = []
       /\ Node.content n' = EmptyString.
Proof.
  intros Hstep Hl. destruct Hstep as
    [nodeType name c cn Hcwd Hcn Hfree
    |name c cn d dn Hcwd Hcn Hd Hdn Hdir
    |name content c cn x fn Hcwd Hcn Hx Hfn Hfile
    |oldName newName c cn x fn Hcwd Hcn Hx Hfn Hfree].
  - rewrite heap_created_inserts in Hl |- *.
    destruct (decide (c = l)) as [->|Hne]; [left; by eexists|].
    rewrite lookup_insert_ne in Hl |- * by done.
    destruct (decide (fresh (dom (FileSystem.heap f)) = l)) as [<-|Hne'].
    + right. rewrite lookup_insert_eq. exists c. eexists.
      split; [by eexists|]. split; [done|]. done.
    + left. by rewrite lookup_insert_ne in Hl.
  - left. apply lookup_insert_is_Some' in Hl as [<-|Hl]; [by eexists | done].
  - left. apply lookup_insert_is_Some' in Hl as [<-|Hl]; [by eexists | done].
  - left. unfold heap_moved in Hl. by rewrite !lookup_alter_is_Some in Hl.
Qed.

(** *** Following parents ends *)

Lemma chain_mono (h h' : gmap loc Node.t) x names :
  (forall l n, h !! l = Some n ->
     exists n', h' !! l = Some n' /\ Node.parent n' = Node.parent n) ->
  chain h x names -> exists names', chain h' x names' /\ length names' = length names.
Proof.
  intros Hmono. induction 1 as [|l n names Hl Hch (names' & IH & Hlen)].
  - exists []. split; [constructor | done].
  - destruct (Hmono l n Hl) as (n' & Hl' & Hp).
    exists (names' ++ [Node.name n'])%list. split.
    + econstructor; [done|]. by rewrite Hp.
    + rewrite !length_app. simpl. lia.
Qed.

Lemma chain_no_self_parent (h : gmap loc Node.t) x names :
  chain h x names ->
  forall l n, x = Some l -> h !! l = Some n -> Node.parent n <> Some l.
Proof.
  induction 1 as [|l0 n0 names Hl0 Hch IH]; [done|].
  intros l n [= <-] Hl Hp. simplify_eq. by eapply IH.
Qed.

Lemma grounded_no_self_parent (h : gmap loc Node.t) l n :
  grounded h -> h !! l = Some n -> Node.parent n <> Some l.
Proof.
  intros Hg Hl. destruct (Hg l) as [names Hch]; [by eexists|].
  by eapply chain_no_self_parent.
Qed.

Lemma heap_step_grounded f user h' :
  grounded (FileSystem.heap f) -> heap_step f user h' -> grounded h'.
Proof.
  intros Hg Hstep l Hl.
  assert (forall l n, FileSystem.heap f !! l = Some n ->
            exists n', h' !! l = Some n' /\ Node.parent n' = Node.parent n) as Hmono.
  { intros l0 n0 Hl0.
    destruct (heap_step_attributes _ _ _ _ _ Hstep Hl0) as (n' & ? & ? & _). eauto. }
  destruct (heap_step_new _ _ _ _ Hstep Hl) as [Hold|(c & n' & Hc & Hl' & Hp & _)].
  - destruct (Hg l Hold) as [names Hch].
    destruct (chain_mono _ _ _ _ Hmono Hch) as (names' & Hch' & _). eauto.
  - destruct (Hg c Hc) as [names Hch].
    destruct (chain_mono _ _ _ _ Hmono Hch) as (names' & Hch' & _).
    exists (names' ++ [Node.name n'])%list. econstructor; [done|]. by rewrite Hp.
Qed.

(** *** Entries and the nodes they refer to *)

Lemma children_ok_update (h : gmap loc Node.t) x n0 n' :
  children_ok h -> h !! x = Some n0 ->
  Node.parent n' = Node.parent n0 -> Node.name n' = Node.name n0 ->
  (forall k d, JSMap.get k (Node.children n') = Some d ->
               JSMap.get k (Node.children n0) = Some d) ->
  children_ok (<[x := n']> h).
Proof.
  intros Hok Hx Hp Hname Hsub l n k d Hl Hd.
  assert (exists n1, h !! l = Some n1 /\ JSMap.get k (Node.children n1) = Some d)
    as (n1 & Hl1 & Hd1).
  { destruct (decide (x = l)) as [->|Hne].
    - rewrite lookup_insert_eq in Hl. simplify_eq. eauto.
    - rewrite lookup_insert_ne in Hl by done. eauto. }
  destruct (Hok l n1 k d Hl1 Hd1) as (dn & Hdn & Hdp & Hdname).
  destruct (decide (x = d)) as [->|Hne].
  - rewrite lookup_insert_eq. simplify_eq. exists n'. by rewrite Hp, Hname.
  - rewrite lookup_insert_ne by done. eauto.
Qed.

Lemma children_ok_alloc (h : gmap loc Node.t) l nw :
  children_ok h -> h !! l = None -> Node.children nw = [] ->
  children_ok (<[l := nw]> h).
Proof.
  intros Hok Hl Hempty l1 n1 k d Hl1 Hd.
  destruct (decide (l = l1)) as [->|Hne].
  - rewrite lookup_insert_eq in Hl1. simplify_eq. by rewrite Hempty in Hd.
  - rewrite lookup_insert_ne in Hl1 by done.
    destruct (Hok l1 n1 k d Hl1 Hd) as (dn & Hdn & Hdp & Hdname).
    exists dn. rewrite lookup_insert_ne; [done|]. intros ->. congruence.
Qed.

Lemma children_ok_add_child (h : gmap loc Node.t) c cn l ln k0 :
  children_ok h -> h !! c = Some cn -> h !! l = Some ln ->
  Node.parent ln = Some c -> Node.name ln = k0 -> c <> l ->
  children_ok (<[c := Node.set_children (JSMap.set k0 l) cn]> h).
Proof.
  intros Hok Hc Hl Hp Hname Hne l1 n1 k d Hl1 Hd.
  assert (forall dn, h !! d = Some dn ->
            exists dn', <[c := Node.set_children (JSMap.set k0 l) cn]> h !! d = Some dn'
                        /\ Node.parent dn' = Node.parent dn
                        /\ Node.name dn' = Node.name dn) as Hsame.
  { intros dn Hdn. destruct (decide (c = d)) as [->|Hcd].
    - rewrite lookup_insert_eq. simplify_eq. by eexists.
    - rewrite lookup_insert_ne by done. eauto. }
  destruct (decide (c = l1)) as [->|Hcl1].
  - rewrite lookup_insert_eq in Hl1. simplify_eq. simpl in Hd.
    apply get_set_inv in Hd as [[-> ->]|[Hk Hd]].
    + exists ln. by rewrite lookup_insert_ne.
    + destruct (Hok l1 cn k d Hc Hd) as (dn & Hdn & Hdp & Hdname).
      destruct (Hsame dn Hdn) as (dn' & ? & ? & ?). exists dn'. split; [done|]. split; congruence.
  - rewrite lookup_insert_ne in Hl1 by done.
    destruct (Hok l1 n1 k d Hl1 Hd) as (dn & Hdn & Hdp & Hdname).
    destruct (Hsame dn Hdn) as (dn' & ? & ? & ?). exists dn'. split; [done|]. split; congruence.
Qed.

Lemma children_ok_rename_orphan (h : gmap loc Node.t) l ln newName :
  children_ok h -> h !! l = Some ln ->
  (forall l1 n1 k, h !! l1 = Some n1 -> JSMap.get k (Node.children n1) <> Some l) ->
  children_ok (<[l := Node.set_name newName ln]> h).
Proof.
  intros Hok Hl Horphan l1 n1 k d Hl1 Hd.
  assert (exists n0, h !! l1 = Some n0 /\ JSMap.get k (Node.children n0) = Some d)
    as (n0 & Hl0 & Hd0).
  { destruct (decide (l = l1)) as [->|Hne].
    - rewrite lookup_insert_eq in Hl1. simplify_eq. eauto.
    - rewrite lookup_insert_ne in Hl1 by done. eauto. }
  destruct (Hok l1 n0 k d Hl0 Hd0) as (dn & Hdn & Hdp & Hdname).
  exists dn. rewrite lookup_insert_ne; [done|].
  intros ->. by apply (Horphan l1 n0 k Hl0).
Qed.

Lemma heap_step_children_ok f user h' :
  children_ok (FileSystem.heap f) -> grounded (FileSystem.heap f) ->
  heap_step f user h' -> children_ok h'.
Proof.
  intros Hok Hg Hstep. destruct Hstep as
    [nodeType name c cn Hcwd Hcn Hfree
    |name c cn d dn Hcwd Hcn Hd Hdn Hdir
    |name content c cn x fn Hcwd Hcn Hx Hfn Hfile
    |oldName newName c cn x fn Hcwd Hcn Hx Hfn Hfree].
  - rewrite heap_created_inserts.
    assert (c <> fresh (dom (FileSystem.heap f))) as Hne.
    { intros ->. by rewrite fresh_lookup in Hcn. }
    eapply children_ok_add_child; [| |apply lookup_insert_eq|done|done|done].
    + apply children_ok_alloc; [done|apply fresh_lookup|done].
    + by rewrite lookup_insert_ne.
  - eapply children_ok_update; [done..|]. simpl. intros k d'. apply get_delete_Some.
  - by eapply children_ok_update.
  - destruct (Hok c cn oldName x Hcn Hx) as (fn' & Hfn' & Hfp & Hfname).
    assert (fn' = fn) as -> by congruence. clear Hfn'.
    assert (c <> x) as Hne.
    { intros ->. by eapply grounded_no_self_parent. }
    erewrite heap_moved_inserts by done.
    eapply children_ok_add_child;
      [| |apply lookup_insert_eq|done|done|done].
    + apply children_ok_rename_orphan.
      * eapply children_ok_update; [done..|]. simpl. intros k d'. apply get_delete_Some.
      * by rewrite lookup_insert_ne.
      * intros l1 n1 k Hl1 Hk. destruct (decide (c = l1)) as [->|Hcl1].
        -- rewrite lookup_insert_eq in Hl1. simplify_eq. simpl in Hk.
           destruct (decide (Node.name fn = k)) as [<-|Hnk].
           ++ by rewrite get_delete_eq in Hk.
           ++ rewrite get_delete_ne in Hk by done.
              destruct (Hok l1 cn k x Hcn Hk) as (? & ? & ? & ?). congruence.
        -- rewrite lookup_insert_ne in Hl1 by done.
           destruct (Hok l1 n1 k x Hl1 Hk) as (? & ? & ? & ?). congruence.
    + by rewrite lookup_insert_ne, lookup_insert_eq.
Qed.

Lemma heap_step_name_content f user h' l n n' :
  heap_step f user h' -> children_ok (FileSystem.heap f) ->
  FileSystem.heap f !! l = Some n -> h' !! l = Some n' ->
  (Node.name n' = Node.name n \/ is_Some (Node.parent n))
  /\ (Node.content n' = Node.content n \/ Node.nodeType n = File).
Proof.
  intros Hstep Hok Hl Hl'. destruct Hstep as
    [nodeType name c cn Hcwd Hcn Hfree
    |name c cn d dn Hcwd Hcn Hd Hdn Hdir
    |name content c cn x fn Hcwd Hcn Hx Hfn Hfile
    |oldName newName c cn x fn Hcwd Hcn Hx Hfn Hfree].
  - rewrite heap_created_inserts in Hl'.
    assert (fresh (dom (FileSystem.heap f)) <> l) as Hfresh.
    { intros <-. by rewrite fresh_lookup in Hl. }
    destruct (decide (c = l)) as [->|Hne].
    + rewrite lookup_insert_eq in Hl'. simplify_eq. auto.
    + rewrite !lookup_insert_ne in Hl' by done. simplify_eq. auto.
  - destruct (decide (c = l)) as [->|Hne].
    + rewrite lookup_insert_eq in Hl'. simplify_eq. auto.
    + rewrite lookup_insert_ne in Hl' by done. simplify_eq. auto.
  - destruct (decide (x = l)) as [->|Hne].
    + rewrite lookup_insert_eq in Hl'. simplify_eq. auto.
    + rewrite lookup_insert_ne in Hl' by done. simplify_eq. auto.
  - destruct (Hok c cn oldName x Hcn Hx) as (fn' & Hfn' & Hfp & Hfname).
    assert (fn' = fn) as -> by congruence. clear Hfn'.
    unfold heap_moved in Hl'.
    destruct (decide (c = l)) as [->|Hcl]; destruct (decide (x = l)) as [->|Hxl];
      rewrite ?lookup_alter_eq, ?lookup_alter_ne, ?lookup_alter_eq,
        ?lookup_alter_ne, ?lookup_alter_eq in Hl' by done;
      rewrite Hl in Hl'; simpl in Hl'; simplify_eq; simpl; eauto.
Qed.

Lemma heap_step_root_ok f user h' :
  root_ok f -> children_ok (FileSystem.heap f) -> heap_step f user h' ->
  root_ok (FileSystem.set_heap (fun _ => h') f).
Proof.
  intros (rn & Hr & Hp & Hname & Htype & Hperm) Hok Hstep.
  destruct (heap_step_attributes _ _ _ _ _ Hstep Hr) as (rn' & Hr' & Hp' & Htype' & Hperm').
  destruct (heap_step_name_content _ _ _ _ _ _ Hstep Hok Hr Hr') as [[Hname'|[? Hsome]] _];
    [|congruence].
  exists rn'. simpl. split; [done|]. split; [congruence|]. split; [congruence|].
  split; congruence.
Qed.

Lemma heap_step_content_ok f user h' :
  content_ok (FileSystem.heap f) -> children_ok (FileSystem.heap f) ->
  heap_step f user h' -> content_ok h'.
Proof.
  intros Hcontent Hok Hstep l n' Hl' Hdir.
  destruct (heap_step_new _ _ _ l Hstep) as [[n Hl]|(c & n2 & _ & Hl2 & _ & _ & Hc)];
    [by eexists| |congruence].
  destruct (heap_step_attributes _ _ _ _ _ Hstep Hl) as (n2 & Hl2 & _ & Htype & _).
  destruct (heap_step_name_content _ _ _ _ _ _ Hstep Hok Hl Hl') as [_ [Hc|Hfile]].
  - rewrite Hc. apply (Hcontent l n Hl). congruence.
  - congruence.
Qed.

Lemma tree_ok_new_FileSystem : tree_ok new_FileSystem.
Proof.
  split; [apply closed_new_FileSystem|]. split; [|split; [|split]].
  - eexists. split; [apply lookup_insert_eq|]. done.
  - intros l n k d. unfold new_FileSystem, alloc. simpl.
    by intros [<- <-]%lookup_singleton_Some.
  - intros l. unfold new_FileSystem, alloc. simpl.
    intros [n [<- <-]%lookup_singleton_Some].
    exists ([] ++ [EmptyString])%list.
    apply (chain_up _ _ (Node.new EmptyString Directory (Permissions.mk "1" "1" rwx rwx rwx)) []);
      [apply lookup_insert_eq | constructor].
  - intros l n. unfold new_FileSystem, alloc. simpl.
    by intros [<- <-]%lookup_singleton_Some.
Qed.

Lemma exec_tree_ok c w : tree_ok (fs w) -> tree_ok (fs (exec c w).2).
Proof.
  intros (Hclosed & Hroot & Hok & Hg & Hcontent).
  split; [by apply exec_closed|].
  destruct (exec_fs_step c w) as [|dir r Hr|h' Hstep]; [done|done|].
  split; [by eapply heap_step_root_ok|]. simpl.
  split; [by eapply heap_step_children_ok|].
  split; [by eapply heap_step_grounded | by eapply heap_step_content_ok].
Qed.

Lemma reachable_tree_ok w : reachable w -> tree_ok (fs w).
Proof.
  induction 1 as [|c w Hw IH]; [apply tree_ok_new_FileSystem | by apply exec_tree_ok].
Qed.

Lemma reachable_execs cs w : reachable w -> reachable (execs cs w).2.
Proof.
  revert w. induction cs as [|c cs IH]; intros w Hw; simpl; [done|].
  unfold bind. pose proof (reachable_exec c w Hw) as H1.
  destruct (exec c w) as [[[]|e] w1]; simpl in *; auto.
Qed.

(* ===================================================================== *)
(** ** The tree in the states the program can reach *)
(* ===================================================================== *)

(** X6. In every state the program can reach, each entry of each node
    refers to a node of that name whose parent is the node holding the entry;
    the root has no parent and the empty name; and from every node the walk
    along [parent] ends. *)
Theorem reachable_tree_shape w :
  reachable w ->
  children_ok (FileSystem.heap (fs w))
  /\ (exists rn, FileSystem.heap (fs w) !! FileSystem.root (fs w) = Some rn
                 /\ Node.parent rn = None /\ Node.name rn = EmptyString)
  /\ grounded (FileSystem.heap (fs w)).
Proof.
  intros (_ & (rn & ? & ? & ? & _) & ? & ? & _)%reachable_tree_ok. eauto 10.
Qed.

Lemma reachable_tree_shape_witness :
  let w := (execs (two_users ++ science_with_notes) new_World).2 in
  children_ok (FileSystem.heap (fs w))
  /\ (exists rn, FileSystem.heap (fs w) !! FileSystem.root (fs w) = Some rn
                 /\ Node.parent rn = None /\ Node.name rn = EmptyString)
  /\ grounded (FileSystem.heap (fs w)).
Proof.
  intros w. apply (reachable_tree_shape w).
  apply reachable_execs, reachable_new.
Defined.

(** X7. In every state the program can reach, a directory has the empty
    content: only [writeFile] assigns [content], and only to files. *)
Theorem reachable_directory_content w l n :
  reachable w ->
  FileSystem.heap (fs w) !! l = Some n ->
  Node.nodeType n = Directory ->
  Node.content n = EmptyString.
Proof. intros (_ & _ & _ & _ & Hc)%reachable_tree_ok. apply Hc. Qed.

Lemma reachable_directory_content_witness :
  let w := (execs (two_users ++ science_with_notes) new_World).2 in
  Node.content <$> childNode "science" w = Some EmptyString.
Proof.
  intros w.
  destruct (child "science" w) as [d|] eqn:Hd; [|by vm_compute in Hd].
  unfold childNode. rewrite Hd. simpl.
  destruct (FileSystem.heap (fs w) !! d) as [dn|] eqn:Hdn.
  - simpl. f_equal. apply (reachable_directory_content w d dn).
    + apply reachable_execs, reachable_new.
    + exact Hdn.
    + assert (Node.nodeType <$> childNode "science" w = Some Directory) as Ht
        by (vm_compute; reflexivity).
      unfold childNode in Ht. rewrite Hd in Ht. simpl in Ht. rewrite Hdn in Ht.
      by injection Ht.
  - assert (is_Some (childNode "science" w)) as [? Hs] by (vm_compute; by eexists).
    unfold childNode in Hs. rewrite Hd in Hs. simpl in Hs. congruence.
Defined.

(** X8. In every state the program can reach, the node that [find(name)]
    returns has the name [name] and the current directory as parent. *)
Theorem reachable_find_name name w l w' :
  reachable w ->
  find name w = (Return [l], w') ->
  exists n,
    FileSystem.heap (fs w) !! l = Some n
    /\ Node.name n = name
    /\ Node.parent n = FileSystem.cwd (fs w).
Proof.
  intros (_ & _ & Hok & _)%reachable_tree_ok. rewrite find_run.
  destruct (FileSystem.cwd (fs w)) as [c|]; [|done].
  destruct (FileSystem.heap (fs w) !! c) as [cn|] eqn:Hcn; [|done].
  destruct (JSMap.get name (Node.children cn)) as [d|] eqn:Hd; [|done].
  intros [= <- <-]. destruct (Hok c cn name d Hcn Hd) as (dn & ? & ? & ?). eauto.
Qed.

Lemma reachable_find_name_witness :
  let w := (execs (two_users ++ [MakeDirectory "school"; CreateFile "notes.txt"])
              new_World).2 in
  exists l n,
    find "school" w = (Return [l], w)
    /\ FileSystem.heap (fs w) !! l = Some n
    /\ Node.name n = "school"
    /\ Node.parent n = FileSystem.cwd (fs w).
Proof.
  intros w.
  assert (exists l, find "school" w = (Return [l], w)) as [l Hl].
  { eexists. vm_compute. reflexivity. }
  destruct (reachable_find_name "school" w l w) as (n & Hn).
  - apply reachable_execs, reachable_new.
  - exact Hl.
  - exists l, n. split; [exact Hl | exact Hn].
Defined.

(** X9. In every state the program can reach, entering a child of the
    current directory and then [".."] leads back: both calls return and the
    state is the one before. *)
Theorem reachable_cd_child_dotdot name w d :
  reachable w ->
  child name w = Some d ->
  name <> "/" -> name <> ".." ->
  changeDirectory name w = (Return tt, set_fs (FileSystem.set_cwd (Some d)) w)
  /\ changeDirectory ".." (set_fs (FileSystem.set_cwd (Some d)) w) = (Return tt, w).
Proof.
  intros (_ & _ & Hok & _)%reachable_tree_ok Hd H1 H2.
  rewrite !changeDirectory_run. unfold resolve, child, cwdNode in *.
  destruct w as [s [h r [c|]]]; simpl in *; [|done].
  destruct (h !! c) as [cn|] eqn:Hcn; simpl in *; [|done].
  rewrite !decide_False by done. rewrite Hd. split; [done|].
  destruct (Hok c cn name d Hcn Hd) as (dn & -> & -> & _). done.
Qed.

Lemma reachable_cd_child_dotdot_witness :
  let w := (execs (two_users ++ [MakeDirectory "school"]) new_World).2 in
  (execs [ChangeDirectory "school"; ChangeDirectory ".."] w) = (Return tt, w).
Proof.
  intros w.
  destruct (child "school" w) as [d|] eqn:Hd; [|by vm_compute in Hd].
  destruct (reachable_cd_child_dotdot "school" w d) as [H1 H2]; [|done..|].
  - apply reachable_execs, reachable_new.
  - simpl. unfold bind. by rewrite H1, H2.
Defined.

(** *** [getPath] *)

Lemma getPath_while_chain (h : gmap loc Node.t) node names :
  chain h node names ->
  forall fuel path,
    (length names <= fuel ->
     getPath_while fuel h node path = Some (Return (names ++ path)%list))
    /\ (forall r, getPath_while fuel h node path = Some r ->
                  r = Return (names ++ path)%list).
Proof.
  induction 1 as [|l n names Hl Hch IH]; intros fuel path.
  - split; [by destruct fuel|]. destruct fuel; simpl; by intros r [= <-].
  - rewrite length_app. simpl. rewrite <- app_assoc. simpl.
    destruct fuel as [|fuel]; simpl.
    + split; [lia|done].
    + rewrite Hl. split.
      * intros Hlen. apply IH. lia.
      * apply IH.
Qed.

Lemma string_app_assoc (s1 s2 s3 : string) : (s1 ++ s2) ++ s3 = s1 ++ s2 ++ s3.
Proof.
  induction s1 as [|a s1 IH]; [done|].
  change (String a ((s1 ++ s2) ++ s3) = String a (s1 ++ s2 ++ s3)). by rewrite IH.
Qed.

Lemma concat_snoc sep (xs : list string) y :
  xs <> [] ->
  String.concat sep (xs ++ [y]) = String.concat sep xs ++ sep ++ y.
Proof.
  induction xs as [|x xs IH]; [done|]. intros _.
  destruct xs as [|x' xs]; [done|].
  change (x ++ sep ++ String.concat sep ((x' :: xs) ++ [y])
          = (x ++ sep ++ String.concat sep (x' :: xs)) ++ sep ++ y).
  rewrite IH by done. by rewrite !string_app_assoc.
Qed.

(** X10. In every state the program can reach, [getCurrentDirectory]
    returns once the bound on its loop is large enough, never throws and
    changes nothing: it returns "/" at the root, the empty string when the
    current directory is [null], and otherwise the names from the root down
    to the current directory, joined by "/". *)
Theorem reachable_getCurrentDirectory w :
  reachable w ->
  exists names,
    chain (FileSystem.heap (fs w)) (FileSystem.cwd (fs w)) names
    /\ forall fuel,
         length names <= fuel ->
         getCurrentDirectory fuel w
         = Some (Return (if decide (FileSystem.cwd (fs w) = Some (FileSystem.root (fs w)))
                         then "/" else String.concat "/" names), w).
Proof.
  intros ((_ & Hcwd & _) & _ & _ & Hg & _)%reachable_tree_ok.
  assert (exists names, chain (FileSystem.heap (fs w)) (FileSystem.cwd (fs w)) names)
    as [names Hch].
  { destruct (FileSystem.cwd (fs w)) as [c|]; [|exists []; constructor].
    apply Hg. by apply Hcwd. }
  exists names. split; [done|]. intros fuel Hfuel.
  unfold getCurrentDirectory, getPath. case_decide; [done|].
  destruct (getPath_while_chain _ _ _ Hch fuel []) as [Hret _].
  rewrite Hret by done. by rewrite app_nil_r.
Qed.

Lemma reachable_getCurrentDirectory_witness :
  let w := (execs (two_users ++ [MakeDirectory "school"; ChangeDirectory "school";
                                 MakeDirectory "science"; ChangeDirectory "science"])%list
              new_World).2 in
  getCurrentDirectory 3 w = Some (Return "/school/science", w)
  /\ exists names,
       chain (FileSystem.heap (fs w)) (FileSystem.cwd (fs w)) names
       /\ forall fuel,
            length names <= fuel ->
            getCurrentDirectory fuel w
            = Some (Return (if decide (FileSystem.cwd (fs w) = Some (FileSystem.root (fs w)))
                            then "/" else String.concat "/" names), w).
Proof.
  intros w. split; [vm_compute; reflexivity|].
  apply (reachable_getCurrentDirectory w).
  apply reachable_execs, reachable_new.
Defined.

Lemma chain_Some_inv (h : gmap loc Node.t) l names :
  chain h (Some l) names ->
  exists n names0,
    h !! l = Some n /\ chain h (Node.parent n) names0
    /\ names = (names0 ++ [Node.name n])%list.
Proof. inversion 1; subst. eauto. Qed.

(** X11. In every state the program can reach, the path of a child of the
    current directory is the path of the current directory (nothing, at the
    root), then "/", then the child's name. *)
Theorem reachable_getCurrentDirectory_child name w d fuel s :
  reachable w ->
  child name w = Some d ->
  name <> "/" -> name <> ".." ->
  getCurrentDirectory fuel w = Some (Return s, w) ->
  (changeDirectory name w).1 = Return tt
  /\ exists fuel0,
       forall fuel', fuel0 <= fuel' ->
         getCurrentDirectory fuel' (changeDirectory name w).2
         = Some (Return ((if decide (FileSystem.cwd (fs w) = Some (FileSystem.root (fs w)))
                          then EmptyString else s) ++ "/" ++ name),
                 (changeDirectory name w).2).
Proof.
  intros Hreach Hd H1 H2 Hs.
  rewrite (changeDirectory_child name w d) by done. split; [done|]. simpl.
  pose proof Hreach as ((_ & Hcwd & _) & (rn & Hrn & Hrp & Hrname & _) & Hok & Hg & _)
    %reachable_tree_ok.
  unfold child, cwdNode in Hd.
  destruct (FileSystem.cwd (fs w)) as [c|] eqn:Hc; simpl in Hd; [|done].
  destruct (FileSystem.heap (fs w) !! c) as [cn|] eqn:Hcn; simpl in Hd; [|done].
  destruct (Hok c cn name d Hcn Hd) as (dn & Hdn & Hdp & Hdname).
  destruct (Hg c) as [names Hch]; [by eexists|].
  assert (d <> FileSystem.root (fs w)) as Hdroot by (intros ->; congruence).
  assert (names <> []) as Hnames.
  { apply chain_Some_inv in Hch as (? & names0 & _ & _ & ->). by destruct names0. }
  assert (chain (FileSystem.heap (fs w)) (Some d) (names ++ [name])%list) as Hchd.
  { rewrite <- Hdname. econstructor; [done|]. by rewrite Hdp. }
  exists (length (names ++ [name])%list). intros fuel' Hfuel.
  unfold getCurrentDirectory, getPath in *. simpl. rewrite Hc in Hs.
  rewrite decide_False by congruence.
  destruct (getPath_while_chain _ _ _ Hchd fuel' []) as [Hret _].
  rewrite Hret by done. rewrite app_nil_r, concat_snoc by done.
  do 3 f_equal. case_decide as Hroot.
  - injection Hroot as ->.
    apply chain_Some_inv in Hch as (rn' & names0 & Hrn' & Hch0 & ->).
    assert (rn' = rn) as -> by congruence. rewrite Hrp in Hch0.
    inversion Hch0; subst. by rewrite Hrname.
  - destruct (getPath_while fuel _ _ _) as [r|] eqn:Hwalk; [|done].
    destruct (getPath_while_chain _ _ _ Hch fuel []) as [_ Hres].
    rewrite (Hres r Hwalk), app_nil_r in Hs. by injection Hs as <-.
Qed.

Lemma reachable_getCurrentDirectory_child_witness :
  let w := (execs (two_users ++ [MakeDirectory "school"; ChangeDirectory "school";
                                 MakeDirectory "science"])%list new_World).2 in
  (changeDirectory "science" w).1 = Return tt
  /\ exists fuel0,
       forall fuel', fuel0 <= fuel' ->
         getCurrentDirectory fuel' (changeDirectory "science" w).2
         = Some (Return ((if decide (FileSystem.cwd (fs w) = Some (FileSystem.root (fs w)))
                          then EmptyString else "/school") ++ "/" ++ "science"),
                 (changeDirectory "science" w).2).
Proof.
  intros w.
  destruct (child "science" w) as [d|] eqn:Hd; [|by vm_compute in Hd].
  apply (reachable_getCurrentDirectory_child "science" w d 2 "/school"); [|done..|].
  - apply reachable_execs, reachable_new.
  - vm_compute. reflexivity.
Defined.

(** X12. [changeDirectory("/")] returns in every state, also when the
    current directory is [null] or a file, and [getCurrentDirectory] then
    returns "/" whatever the bound on its loop. *)
Theorem changeDirectory_root w fuel :
  changeDirectory "/" w
  = (Return tt, set_fs (FileSystem.set_cwd (Some (FileSystem.root (fs w)))) w)
  /\ getCurrentDirectory fuel (changeDirectory "/" w).2
     = Some (Return "/", (changeDirectory "/" w).2).
Proof.
  rewrite changeDirectory_run. unfold resolve. simpl. split; [done|].
  unfold getCurrentDirectory, getPath. simpl. by rewrite decide_True.
Qed.

(* ===================================================================== *)
(** ** Listings *)
(* ===================================================================== *)

(** X13. After a [makeDirectory] or [createFile] that returns, a listing
    that was allowed before is allowed still and is the old listing with the
    new name at its end. *)
Theorem listDirectory_after_create name w w' names :
  makeDirectory name w = (Return tt, w') \/ createFile name w = (Return tt, w') ->
  listDirectory w = (Return names, w) ->
  listDirectory w' = (Return (names ++ [name])%list, w').
Proof.
  intros Hcall. rewrite makeDirectory_run, createFile_run in Hcall.
  assert (exists nodeType err, create_outcome nodeType err name w = (Return tt, w'))
    as (nodeType & err & Hrun) by (destruct Hcall; eauto).
  apply create_Return in Hrun as (c & cn & Hc & Hcn & _ & Hfree & ->).
  rewrite !listDirectory_run. simpl. rewrite Hc, Hcn, heap_created_cwd. simpl.
  destruct (Permissions.userHasPermission _ _ _); [|done].
  intros [= <-]. by rewrite keys_set_new by (by apply has_false).
Qed.

Lemma listDirectory_after_create_witness :
  let w := (execs (two_users ++ [CreateFile "notes.txt"; CreateFile "notes2.txt"])%list
              new_World).2 in
  listDirectory (makeDirectory "school" w).2
  = (Return ["notes.txt"; "notes2.txt"; "school"], (makeDirectory "school" w).2).
Proof.
  intros w.
  apply (listDirectory_after_create "school" w (makeDirectory "school" w).2
           ["notes.txt"; "notes2.txt"]).
  - left. vm_compute. reflexivity.
  - vm_compute. reflexivity.
Defined.

(** X14. After a [removeDirectory] that returns, the listing is the old
    one without the name; after a [moveFile] that returns, it is the old one
    without the old name and with the new name at its end. *)
Theorem listDirectory_after_remove_move w w' names :
  listDirectory w = (Return names, w) ->
  (forall name,
     removeDirectory name w = (Return tt, w') ->
     listDirectory w' = (Return (filter (fun k => k <> name) names), w'))
  /\ (forall oldName newName,
        moveFile oldName newName w = (Return tt, w') ->
        listDirectory w'
        = (Return (filter (fun k => k <> oldName) names ++ [newName])%list, w')).
Proof.
  intros Hlist. split.
  - intros name. revert Hlist. rewrite removeDirectory_run, !listDirectory_run.
    destruct (FileSystem.cwd (fs w)) as [c|] eqn:Hc; [|done].
    destruct (FileSystem.heap (fs w) !! c) as [cn|] eqn:Hcn; [|done].
    destruct (Permissions.userHasPermission (Node.permissions cn) READ _) eqn:Hread; [|done].
    intros [= <-].
    destruct (Permissions.userHasPermission (Node.permissions cn) WRITE _); [|done].
    destruct (JSMap.get name (Node.children cn)) as [d|]; [|done].
    destruct (FileSystem.heap (fs w) !! d) as [dn|]; [|done].
    destruct (Node.isDirectory dn); [|done]. intros [= <-]. simpl.
    rewrite Hc, lookup_insert_eq. simpl. rewrite Hread.
    by rewrite keys_delete_filter.
  - intros oldName newName. revert Hlist. rewrite moveFile_run, !listDirectory_run.
    destruct (FileSystem.cwd (fs w)) as [c|] eqn:Hc; [|done].
    destruct (FileSystem.heap (fs w) !! c) as [cn|] eqn:Hcn; [|done].
    destruct (Permissions.userHasPermission (Node.permissions cn) READ _) eqn:Hread; [|done].
    intros [= <-].
    destruct (Permissions.userHasPermission (Node.permissions cn) WRITE _); [|done].
    destruct (JSMap.get oldName (Node.children cn)) as [l|] eqn:Hl; [|done].
    destruct (FileSystem.heap (fs w) !! l) as [fn|] eqn:Hfn; [|done].
    destruct (Permissions.userHasPermission (Node.permissions fn) WRITE _); [|done].
    destruct (JSMap.has newName (Node.children cn)) eqn:Hnew; [done|].
    intros [= <-]. simpl. rewrite Hc. unfold heap_moved.
    assert (JSMap.has newName (JSMap.delete oldName (Node.children cn)) = false) as Hnew'.
    { apply has_false. apply has_false in Hnew.
      destruct (JSMap.get newName (JSMap.delete _ _)) eqn:Hg; [|done].
      apply get_delete_Some in Hg. congruence. }
    destruct (decide (c = l)) as [->|Hne].
    + rewrite !lookup_alter_eq, Hcn. simpl. rewrite Hread.
      by rewrite keys_set_new, keys_delete_filter.
    + rewrite lookup_alter_eq, lookup_alter_ne, lookup_alter_eq, Hcn by done. simpl.
      rewrite Hread. by rewrite keys_set_new, keys_delete_filter.
Qed.

Lemma listDirectory_after_remove_move_witness :
  let w := (execs (two_users ++ [CreateFile "a"; MakeDirectory "d"; CreateFile "c"])%list
              new_World).2 in
  listDirectory (removeDirectory "d" w).2 = (Return ["a"; "c"], (removeDirectory "d" w).2)
  /\ listDirectory (moveFile "a" "b" w).2 = (Return ["d"; "c"; "b"], (moveFile "a" "b" w).2).
Proof.
  intros w. split.
  - apply (proj1 (listDirectory_after_remove_move w (removeDirectory "d" w).2 ["a"; "d"; "c"]
                    ltac:(vm_compute; reflexivity)) "d").
    vm_compute. reflexivity.
  - apply (proj2 (listDirectory_after_remove_move w (moveFile "a" "b" w).2 ["a"; "d"; "c"]
                    ltac:(vm_compute; reflexivity)) "a" "b").
    vm_compute. reflexivity.
Defined.

(* ===================================================================== *)
(** ** What no call changes *)
(* ===================================================================== *)

(** X15. No call frees a node or changes its parent, its type or its
    permissions. *)
Theorem exec_keeps_attributes c w l n :
  FileSystem.heap (fs w) !! l = Some n ->
  exists n',
    FileSystem.heap (fs (exec c w).2) !! l = Some n'
    /\ Node.parent n' = Node.parent n
    /\ Node.nodeType n' = Node.nodeType n
    /\ Node.permissions n' = Node.permissions n.
Proof.
  intros Hl. destruct (exec_fs_step c w) as [|dir r Hr|h' Hstep]; simpl; eauto.
  by eapply heap_step_attributes.
Qed.

Lemma exec_keeps_attributes_witness :
  let w := (execs (two_users ++ [CreateFile "a"])%list new_World).2 in
  exists n',
    FileSystem.heap (fs (exec (MoveFile "a" "b") w).2) !! 1 = Some n'
    /\ Node.parent n' = Some 0
    /\ Node.nodeType n' = File
    /\ Node.permissions n' = defaultPermissionsOf (Some (User.mk "id-1" "test" (Some "test"))).
Proof.
  intros w.
  apply (exec_keeps_attributes (MoveFile "a" "b") w 1
           (Node.set_parent (Some 0)
              (Node.new "a" File
                 (defaultPermissionsOf (Some (User.mk "id-1" "test" (Some "test"))))))).
  vm_compute. reflexivity.
Defined.

(* ===================================================================== *)
(** ** Who may do what *)
(* ===================================================================== *)

Lemma rwx_has p : bool_decide (p ∈ rwx) = true.
Proof. apply bool_decide_eq_true. unfold rwx. destruct p; set_solver. Qed.

Lemma create_Return_childNode nodeType err name w w' :
  create_outcome nodeType err name w = (Return tt, w') ->
  um w' = um w
  /\ FileSystem.cwd (fs w') = FileSystem.cwd (fs w)
  /\ exists n, childNode name w' = Some n
               /\ Node.nodeType n = nodeType
               /\ Node.content n = EmptyString
               /\ Node.permissions n = defaultPermissionsOf (UserManager.currentUser (um w)).
Proof.
  intros (c & cn & Hc & Hcn & _ & _ & ->)%create_Return.
  split; [done|]. split; [done|].
  eexists. unfold childNode, child, cwdNode. simpl. rewrite Hc. simpl.
  rewrite heap_created_cwd. simpl. rewrite get_set_eq. simpl.
  rewrite heap_created_new by done. done.
Qed.

(** X16. A node made by [makeDirectory] or [createFile] under a current
    user grants every permission to the identities with that user's id or
    that user's group, and none to any other identity, nor to no identity. *)
Theorem created_node_access name w w' u :
  UserManager.reachable (um w) ->
  UserManager.currentUser (um w) = Some u ->
  makeDirectory name w = (Return tt, w') \/ createFile name w = (Return tt, w') ->
  exists n,
    childNode name w' = Some n
    /\ forall p identity,
         Permissions.userHasPermission (Node.permissions n) p identity
         = match identity with
           | Some v => bool_decide (User.id v = User.id u \/ User.groupId v = User.groupId u)
           | None => false
           end.
Proof.
  intros Hreach Hu Hcall. rewrite makeDirectory_run, createFile_run in Hcall.
  assert (exists nodeType err, create_outcome nodeType err name w = (Return tt, w'))
    as (nodeType & err & Hrun) by (destruct Hcall; eauto).
  apply create_Return_childNode in Hrun as (_ & _ & n & Hn & _ & _ & Hperm).
  exists n. split; [done|]. intros p identity. rewrite Hperm, Hu.
  apply reachable_has_group in Hreach as [_ Hg]. destruct (Hg u Hu) as [g Hgu].
  unfold Permissions.userHasPermission, defaultPermissionsOf. simpl. rewrite Hgu. simpl.
  destruct identity as [v|]; simpl.
  - destruct (decide (Some (User.id v) = Some (User.id u))) as [Hid|Hid].
    + rewrite rwx_has. symmetry. apply bool_decide_eq_true. left. congruence.
    + destruct (decide (User.groupId v = Some g)) as [Hgv|Hgv].
      * rewrite rwx_has. symmetry. apply bool_decide_eq_true. by right.
      * etrans; [apply bool_decide_eq_false_2; set_solver|].
        symmetry. apply bool_decide_eq_false.
        intros [?|?]; congruence.
  - rewrite ?decide_False by done. apply bool_decide_eq_false_2. set_solver.
Qed.

Lemma created_node_access_witness :
  let w := (execs two_users new_World).2 in
  exists n,
    childNode "notes.txt" (createFile "notes.txt" w).2 = Some n
    /\ forall p identity,
         Permissions.userHasPermission (Node.permissions n) p identity
         = match identity with
           | Some v => bool_decide (User.id v = "id-1" \/ User.groupId v = Some "test")
           | None => false
           end.
Proof.
  intros w.
  apply (created_node_access "notes.txt" w (createFile "notes.txt" w).2
           (User.mk "id-1" "test" (Some "test"))).
  - apply reachable_um, reachable_execs, reachable_new.
  - vm_compute. reflexivity.
  - right. vm_compute. reflexivity.
Defined.

(** X17. What is made without a current user belongs to the user and the
    group with the empty name: with no current user still, [writeFile] and
    [readFile] on a file just created throw "Permission denied". *)
Theorem anonymous_file_denied name content w w' :
  UserManager.currentUser (um w) = None ->
  createFile name w = (Return tt, w') ->
  writeFile name content w' = (Throw PermissionDenied, w')
  /\ readFile name w' = (Throw PermissionDenied, w').
Proof.
  intros Hu Hrun. rewrite createFile_run in Hrun.
  pose proof Hrun as (c & cn & Hc & Hcn & _ & _ & ->)%create_Return.
  rewrite writeFile_run, readFile_run. simpl. rewrite Hc, heap_created_cwd. simpl.
  rewrite get_set_eq, heap_created_new by done. simpl.
  rewrite Hu. unfold Permissions.userHasPermission. simpl.
  rewrite ?decide_False by done.
  by rewrite !(bool_decide_eq_false_2 (_ ∈ ∅)) by set_solver.
Qed.

Lemma anonymous_file_denied_witness :
  writeFile "a" "x" (createFile "a" new_World).2
  = (Throw PermissionDenied, (createFile "a" new_World).2)
  /\ readFile "a" (createFile "a" new_World).2
     = (Throw PermissionDenied, (createFile "a" new_World).2).
Proof.
  apply (anonymous_file_denied "a" "x" new_World (createFile "a" new_World).2).
  - reflexivity.
  - vm_compute. reflexivity.
Defined.

(** X18. In every state the program can reach, the root grants every
    permission to every identity and to none: with the root as current
    directory and whoever the current user is, [listDirectory] returns,
    [makeDirectory] and [createFile] return for a name that is free, and
    [removeDirectory] returns for a child directory, whoever owns it. *)
Theorem reachable_root_open w s name :
  reachable w ->
  FileSystem.cwd (fs w) = Some (FileSystem.root (fs w)) ->
  (exists names, listDirectory (mkWorld s (fs w)) = (Return names, mkWorld s (fs w)))
  /\ (child name w = None ->
      (makeDirectory name (mkWorld s (fs w))).1 = Return tt
      /\ (createFile name (mkWorld s (fs w))).1 = Return tt)
  /\ (forall dn, childNode name w = Some dn -> Node.nodeType dn = Directory ->
                 (removeDirectory name (mkWorld s (fs w))).1 = Return tt).
Proof.
  intros (_ & (rn & Hrn & _ & _ & _ & Hperm) & _)%reachable_tree_ok Hcwd.
  assert (forall p, Permissions.userHasPermission (Node.permissions rn) p
                      (UserManager.currentUser s) = true) as Hall.
  { intros p. rewrite Hperm. unfold Permissions.userHasPermission. simpl.
    destruct (decide (_ = Some "1")); [apply rwx_has|].
    destruct (decide (_ = Some "1")); apply rwx_has. }
  unfold childNode, child, cwdNode.
  rewrite listDirectory_run, makeDirectory_run, createFile_run, removeDirectory_run.
  unfold create_outcome. simpl. rewrite Hcwd. simpl. rewrite Hrn. simpl.
  rewrite !Hall. split; [eauto|]. split.
  - intros Hfree. unfold JSMap.has. by rewrite Hfree.
  - intros dn Hdn Hdir. destruct (JSMap.get name (Node.children rn)) as [d|]; [|done].
    simpl in Hdn. rewrite Hdn. unfold Node.isDirectory.
    by rewrite bool_decide_eq_true_2.
Qed.

Lemma reachable_root_open_witness :
  let w := (execs (two_users ++ [MakeDirectory "school"])%list new_World).2 in
  (exists names, listDirectory (mkWorld UserManager.new (fs w))
                 = (Return names, mkWorld UserManager.new (fs w)))
  /\ (removeDirectory "school" (mkWorld UserManager.new (fs w))).1 = Return tt.
Proof.
  intros w.
  destruct (reachable_root_open w UserManager.new "school") as (H1 & _ & H3).
  - apply reachable_execs, reachable_new.
  - vm_compute. reflexivity.
  - split; [exact H1|].
    destruct (childNode "school" w) as [dn|] eqn:Hdn; [|by vm_compute in Hdn].
    apply (H3 dn eq_refl).
    assert (Node.nodeType <$> childNode "school" w = Some Directory) as Ht
      by (vm_compute; reflexivity).
    rewrite Hdn in Ht. by injection Ht.
Defined.

(* ===================================================================== *)
(** ** Files *)
(* ===================================================================== *)

(** X19. With [name] absent from the current directory, [readFile] and
    [writeFile] throw "File not found".  With a child of that name, they ask
    for Read (Write) on the child, not on the current directory, and only
    then for its type: "Permission denied" without the permission, else
    "not a file" for a directory, else the content (the assignment). *)
Theorem readFile_writeFile_outcome name content w cn :
  cwdNode w = Some cn ->
  (child name w = None ->
   readFile name w = (Throw FileNotFound, w)
   /\ writeFile name content w = (Throw FileNotFound, w))
  /\ (forall fn,
        childNode name w = Some fn ->
        readFile name w
        = (if Permissions.userHasPermission (Node.permissions fn) READ
                (UserManager.currentUser (um w))
           then if Node.isFile fn then Return (Node.content fn)
                else Throw CannotReadNotAFile
           else Throw PermissionDenied, w)
        /\ (writeFile name content w).1
           = (if Permissions.userHasPermission (Node.permissions fn) WRITE
                   (UserManager.currentUser (um w))
              then if Node.isFile fn then Return tt else Throw CannotWriteNotAFile
              else Throw PermissionDenied)).
Proof.
  unfold childNode, child, cwdNode. rewrite readFile_run, writeFile_run.
  destruct (FileSystem.cwd (fs w)) as [c|]; simpl; [|done].
  intros ->. simpl. split.
  - by intros ->.
  - intros fn. destruct (JSMap.get name (Node.children cn)) as [l|]; simpl; [|done].
    intros ->. by repeat case_match.
Qed.

Lemma readFile_writeFile_outcome_witness :
  let w := (execs (two_users ++ [MakeDirectory "school"; ChangeDirectory "school";
                                 CreateFile "notes.txt"; MakeDirectory "science";
                                 AsUser (UserManager.SetCurrentUserByName "test2")])%list
              new_World).2 in
  readFile "nothing" w = (Throw FileNotFound, w)
  /\ readFile "notes.txt" w = (Throw PermissionDenied, w)
  /\ readFile "science" w = (Throw PermissionDenied, w).
Proof.
  intros w. split; [|split].
  - eapply (readFile_writeFile_outcome "nothing" "x" w); vm_compute; reflexivity.
  - etrans.
    + eapply (readFile_writeFile_outcome "notes.txt" "x" w); vm_compute; reflexivity.
    + vm_compute. reflexivity.
  - etrans.
    + eapply (readFile_writeFile_outcome "science" "x" w); vm_compute; reflexivity.
    + vm_compute. reflexivity.
Defined.

(** X20. In every state the program can reach, a [writeFile] that returns
    changes what [readFile] returns for no other name, and changes no
    listing. *)
Theorem reachable_writeFile_frame name content other w w' :
  reachable w ->
  writeFile name content w = (Return tt, w') ->
  other <> name ->
  (readFile other w').1 = (readFile other w).1
  /\ (listDirectory w').1 = (listDirectory w).1.
Proof.
  intros (_ & _ & Hok & _)%reachable_tree_ok.
  rewrite writeFile_run, !readFile_run, !listDirectory_run.
  destruct (FileSystem.cwd (fs w)) as [c|] eqn:Hc; [|done].
  destruct (FileSystem.heap (fs w) !! c) as [cn|] eqn:Hcn; [|done].
  destruct (JSMap.get name (Node.children cn)) as [l|] eqn:Hl; [|done].
  destruct (FileSystem.heap (fs w) !! l) as [fn|] eqn:Hfn; [|done].
  destruct (Permissions.userHasPermission (Node.permissions fn) WRITE _); [|done].
  destruct (Node.isFile fn); [|done]. intros [= <-] Hne. simpl. rewrite Hc.
  assert (exists cn', <[l := Node.set_content content fn]> (FileSystem.heap (fs w)) !! c
                      = Some cn'
                      /\ Node.children cn' = Node.children cn
                      /\ Node.permissions cn' = Node.permissions cn)
    as (cn' & -> & -> & ->).
  { destruct (decide (l = c)) as [->|Hlc].
    - rewrite lookup_insert_eq. eexists. split; [done|]. simpl. split; congruence.
    - rewrite lookup_insert_ne by done. eauto. }
  split; [|by destruct (Permissions.userHasPermission _ _ _)].
  destruct (JSMap.get other (Node.children cn)) as [l'|] eqn:Hl'; [|done].
  assert (l <> l') as Hll.
  { intros <-.
    destruct (Hok c cn name l Hcn Hl) as (n1 & ? & _ & ?).
    destruct (Hok c cn other l Hcn Hl') as (n2 & ? & _ & ?). congruence. }
  rewrite lookup_insert_ne by done.
  by repeat case_match.
Qed.

Lemma reachable_writeFile_frame_witness :
  let w := (execs (two_users ++ [CreateFile "a"; CreateFile "b"; WriteFile "b" "old"])%list
              new_World).2 in
  (readFile "b" (writeFile "a" "new" w).2).1 = Return "old".
Proof.
  intros w.
  rewrite (proj1 (reachable_writeFile_frame "a" "new" "b" w (writeFile "a" "new" w).2
                    ltac:(apply reachable_execs, reachable_new)
                    ltac:(vm_compute; reflexivity) ltac:(done))).
  vm_compute. reflexivity.
Defined.

(** X21. A [moveFile] that returns keeps the node: the new name refers to
    the node the old name referred to, with its type, content and permissions,
    so that [readFile] of the new name does what [readFile] of the old name
    did; the entries under other names are as before. *)
Theorem moveFile_keeps_node oldName newName w w' :
  moveFile oldName newName w = (Return tt, w') ->
  child newName w' = child oldName w
  /\ child oldName w' = None
  /\ (forall other, other <> oldName -> other <> newName -> child other w' = child other w)
  /\ (readFile newName w').1 = (readFile oldName w).1.
Proof.
  rewrite moveFile_run, !readFile_run. unfold child, cwdNode.
  destruct (FileSystem.cwd (fs w)) as [c|] eqn:Hc; [|done].
  destruct (FileSystem.heap (fs w) !! c) as [cn|] eqn:Hcn; [|done].
  destruct (Permissions.userHasPermission (Node.permissions cn) WRITE _); [|done].
  destruct (JSMap.get oldName (Node.children cn)) as [l|] eqn:Hl; [|done].
  destruct (FileSystem.heap (fs w) !! l) as [fn|] eqn:Hfn; [|done].
  destruct (Permissions.userHasPermission (Node.permissions fn) WRITE _); [|done].
  destruct (JSMap.has newName (Node.children cn)) eqn:Hnew; [done|].
  apply has_false in Hnew. intros [= <-]. simpl. rewrite Hc. simpl. rewrite Hcn. simpl.
  assert (oldName <> newName) as Hne by (intros ->; congruence).
  assert (exists cn' fn',
            heap_moved oldName newName c l (FileSystem.heap (fs w)) !! c = Some cn'
            /\ Node.children cn'
               = JSMap.set newName l (JSMap.delete oldName (Node.children cn))
            /\ heap_moved oldName newName c l (FileSystem.heap (fs w)) !! l = Some fn'
            /\ Node.permissions fn' = Node.permissions fn
            /\ Node.nodeType fn' = Node.nodeType fn
            /\ Node.content fn' = Node.content fn)
    as (cn' & fn' & Hcn' & Hkids & Hfn' & Hperm & Htype & Hcontent).
  { unfold heap_moved. destruct (decide (c = l)) as [->|Hcl].
    - rewrite !lookup_alter_eq, Hcn. simpl. eexists _, _. split; [done|].
      split; [done|]. split; [done|]. by simplify_eq.
    - rewrite lookup_alter_eq, lookup_alter_ne, lookup_alter_eq, Hcn by done.
      rewrite lookup_alter_ne, lookup_alter_eq, lookup_alter_ne, Hfn by done.
      simpl. by eexists _, _. }
  rewrite Hcn'. simpl. rewrite Hkids.
  rewrite get_set_eq, get_set_ne, get_delete_eq by done.
  split; [done|]. split; [done|]. split.
  - intros other H1 H2. by rewrite get_set_ne, get_delete_ne by done.
  - rewrite ?Hl, ?Hfn, ?Hfn'. unfold Node.isFile. rewrite Hperm, Htype, Hcontent.
    by repeat case_match.
Qed.

Lemma moveFile_keeps_node_witness :
  let w := (execs (two_users ++ [CreateFile "a"; WriteFile "a" "text"])%list new_World).2 in
  (readFile "b" (moveFile "a" "b" w).2).1 = Return "text".
Proof.
  intros w.
  destruct (moveFile_keeps_node "a" "b" w (moveFile "a" "b" w).2) as (_ & _ & _ & ->).
  - vm_compute. reflexivity.
  - vm_compute. reflexivity.
Defined.

(** X22. When the current identity may write the current directory and
    the node to move, [moveFile] onto a name that is taken, the node's own
    name included, throws "already exists" and changes nothing. *)
Theorem moveFile_onto_existing oldName newName w fn :
  mayWriteCwd w = true ->
  childNode oldName w = Some fn ->
  Permissions.userHasPermission (Node.permissions fn) WRITE
    (UserManager.currentUser (um w)) = true ->
  newName = oldName \/ is_Some (child newName w) ->
  moveFile oldName newName w = (Throw (NodeAlreadyExists newName), w).
Proof.
  unfold mayWriteCwd, childNode, child, cwdNode. rewrite moveFile_run.
  destruct (FileSystem.cwd (fs w)) as [c|]; simpl; [|done].
  destruct (FileSystem.heap (fs w) !! c) as [cn|]; simpl; [|done].
  intros ->. destruct (JSMap.get oldName (Node.children cn)) as [l|] eqn:Hl; simpl; [|done].
  intros -> -> Hnew.
  assert (JSMap.has newName (Node.children cn) = true) as ->; [|done].
  apply has_true. destruct Hnew as [->|Hnew]; [by eexists | done].
Qed.

Lemma moveFile_onto_existing_witness :
  let w := (execs (two_users ++ [CreateFile "a"])%list new_World).2 in
  moveFile "a" "a" w = (Throw (NodeAlreadyExists "a"), w).
Proof.
  intros w. eapply (moveFile_onto_existing "a" "a" w).
  - vm_compute. reflexivity.
  - vm_compute. reflexivity.
  - vm_compute. reflexivity.
  - by left.
Defined.

(** X23. A directory just made is empty, whatever was under that name
    before: its maker enters it, and the listing is empty. *)
Theorem new_directory_is_empty name w w' u :
  UserManager.reachable (um w) ->
  UserManager.currentUser (um w) = Some u ->
  makeDirectory name w = (Return tt, w') ->
  name <> "/" -> name <> ".." ->
  exists w'',
    changeDirectory name w' = (Return tt, w'')
    /\ listDirectory w'' = (Return [], w'').
Proof.
  intros Hreach Hu Hrun H1 H2. rewrite makeDirectory_run in Hrun.
  pose proof Hrun as (c & cn & Hc & Hcn & _ & _ & ->)%create_Return.
  rewrite changeDirectory_run. unfold resolve. rewrite !decide_False by done.
  simpl. rewrite Hc, heap_created_cwd. rewrite decide_False by done. simpl.
  rewrite get_set_eq. eexists. split; [done|].
  rewrite listDirectory_run. simpl. rewrite heap_created_new by done. simpl.
  rewrite Hu. unfold Permissions.userHasPermission. simpl.
  rewrite decide_True by done. by rewrite rwx_has.
Qed.

Lemma new_directory_is_empty_witness :
  let w := (execs (two_users ++ [MakeDirectory "d"; ChangeDirectory "d"; CreateFile "f";
                                 ChangeDirectory ".."; RemoveDirectory "d"])%list
              new_World).2 in
  exists w'',
    changeDirectory "d" (makeDirectory "d" w).2 = (Return tt, w'')
    /\ listDirectory w'' = (Return [], w'').
Proof.
  intros w.
  apply (new_directory_is_empty "d" w (makeDirectory "d" w).2
           (User.mk "id-1" "test" (Some "test"))).
  - apply reachable_um, reachable_execs, reachable_new.
  - vm_compute. reflexivity.
  - vm_compute. reflexivity.
  - done.
  - done.
Defined.

(** X24. [changeDirectory] with a name other than "/" and ".." that the
    current directory does not hold throws "File or directory not found" and
    changes nothing. *)
Theorem changeDirectory_absent name w cn :
  cwdNode w = Some cn ->
  name <> "/" -> name <> ".." ->
  child name w = None ->
  changeDirectory name w = (Throw FileOrDirectoryNotFound, w).
Proof.
  unfold child, cwdNode. rewrite changeDirectory_run. unfold resolve.
  intros Hcn H1 H2. rewrite decide_False by done.
  destruct (FileSystem.cwd (fs w)) as [c|]; simpl in *; [|done].
  rewrite Hcn. simpl. rewrite decide_False by done. by intros ->.
Qed.

Lemma changeDirectory_absent_witness :
  changeDirectory "nonexistent" new_World = (Throw FileOrDirectoryNotFound, new_World).
Proof.
  eapply (changeDirectory_absent "nonexistent" new_World); [|done|done|].
  - vm_compute. reflexivity.
  - vm_compute. reflexivity.
Defined.
